(** * AdsWorldScraper: a shallow embedding of [image_scraaperr.py]

    The scraper walks the paginated feed [{base_url}/blog/feed?page={n}],
    collects the image URLs of every page and stores each image under
    [{download_dir}/page_{n}/{filename}].

    Python integers are unbounded, so page numbers and counters are [Z].
    A Python string is modelled by the [string] of its UTF-8 bytes:
    [len] counts code points, not bytes; the tests the code makes on
    strings (prefixes, substrings, the slash and the dot) are all on
    ASCII text, where bytes and characters agree, and case folding is
    the ASCII one, which agrees with [str.lower] on every comparison
    the code makes. Third-party code (requests, BeautifulSoup, urllib,
    the hash order of [set]) and the outside world (web site, disk
    faults) are parameters; where such a call can raise, so does its
    model. *)

From Stdlib Require Import Ascii String ZArith Lia.
From stdpp Require Import base strings list gmap pretty.

Local Open Scope string_scope.
Local Open Scope Z_scope.

(** ** Python string primitives *)

Module PyStr.

(** [s.startswith(p)] *)
Definition startswith (p s : string) : bool := String.prefix p s.

(** [sub in s] *)
Fixpoint contains (sub s : string) : bool :=
  startswith sub s ||
  match s with
  | EmptyString => false
  | String _ rest => contains sub rest
  end.

Definition lower_char (c : ascii) : ascii :=
  let n := nat_of_ascii c in
  if (Nat.leb 65 n && Nat.leb n 90)%bool then ascii_of_nat (n + 32) else c.

(** [s.lower()] *)
Fixpoint lower (s : string) : string :=
  match s with
  | EmptyString => EmptyString
  | String c rest => String (lower_char c) (lower rest)
  end.

(** A byte [10xxxxxx] continues a character begun before it. *)
Definition is_continuation (c : ascii) : bool :=
  let n := nat_of_ascii c in
  (Nat.leb 128 n && Nat.ltb n 192)%bool.

(** The number of code points of a UTF-8 string. *)
Fixpoint code_points (s : string) : nat :=
  match s with
  | EmptyString => O
  | String c rest =>
      if is_continuation c then code_points rest
      else S (code_points rest)
  end.

(** [len(s)] *)
Definition len (s : string) : Z := Z.of_nat (code_points s).

(** Truth value of an optional string: [None] and [''] are false. *)
Definition truthy (o : option string) : bool :=
  match o with
  | Some s => negb (String.eqb s "")
  | None => false
  end.

(** [a or b] *)
Definition por (a b : option string) : option string :=
  if truthy a then a else b.

(** [os.path.basename(p)]: what follows the last slash. *)
Fixpoint basename_from (cur p : string) : string :=
  match p with
  | EmptyString => cur
  | String c rest =>
      if Ascii.eqb c "/"%char then basename_from "" rest
      else basename_from (cur +:+ String c "") rest
  end.

Definition basename (p : string) : string := basename_from "" p.

End PyStr.

(** ** The outside world *)

(** An [<img>] element is its attribute dictionary; [img.get(k)] is a
    lookup in it. *)
Abbreviation img_tag := (gmap string string).

(** Third-party functions the scraper calls. *)
Record library := {
  (** [BeautifulSoup(html, 'html.parser').find_all('img')] *)
  find_all_img : string → list img_tag;
  (** [urllib.parse.urljoin(base, src)]; [None] when it raises
      [ValueError] *)
  urljoin : string → string → option string;
  (** [urllib.parse.urlparse(url).path]; [None] when it raises [ValueError] *)
  urlparse_path : string → option string;
}.

(** What [session.get] gives back. *)
Record response := {
  status_ok : bool;              (* [raise_for_status()] passes *)
  content_type : option string;  (* [headers.get('content-type')] *)
  text : string;                 (* [response.text] *)
  chunks : list string;          (* the chunks [iter_content] yields *)
  stream_breaks : bool;          (* [iter_content] raises after them *)
}.

Inductive http_result :=
| RequestError            (* connection error or timeout *)
| Responded (r : response).

(** How writing one file goes wrong, if it does. *)
Inductive write_fault :=
| NoFault
| OpenFails               (* [open(file_path, 'wb')] raises *)
| WriteFails (k : nat).   (* the write of chunk number [k] raises *)

Record world := {
  http : string → http_result;
  mkdir_fails : string → bool;
  (** [file_path.exists()] raises for this directory and file name (a
      name the file system refuses, so no such file is there) *)
  stat_fails : string → string → bool;
  write_plan : string → string → write_fault;
}.

(** The download directory: page directory name, then file name, then
    the chunks written. A file name never holds a slash (it is a
    basename or a synthesized name), so the pair determines the path
    [{download_dir}/{page_dir}/{filename}]. *)
Abbreviation tree := (gmap string (gmap string (list string))).

(** Counters of the scraper object, with the disk it writes to. *)
Record state := {
  downloaded_count : Z;
  failed_count : Z;
  disk : tree;
}.

(** The object [__init__] leaves, over a download directory that holds
    [t]: the directory is there when the constructor returns (its
    [mkdir(exist_ok=True)] made it or found it). *)
Definition new_scraper (t : tree) : state :=
  {| downloaded_count := 0; failed_count := 0; disk := t |}.

(** ** The [try] block of [download_image] as a state and error monad *)

Inductive exn :=
| UrlError         (* [urlparse] or [urljoin] raised *)
| DirError         (* [page_dir.mkdir] raised *)
| RequestException (* [session.get] or [raise_for_status] raised *)
| StreamError      (* [iter_content] raised *)
| WriteError       (* [open] or [f.write] raised *)
| PathError.       (* [file_path.exists] raised *)

Inductive result (A : Type) :=
| Ok (a : A)
| Raise (e : exn).
Arguments Ok {A} a.
Arguments Raise {A} e.

(** An exception passes through the code after the call. *)
Definition and_then {A B} (r : result A) (k : A → result B) : result B :=
  match r with
  | Ok a => k a
  | Raise e => Raise e
  end.

Definition M (A : Type) : Type := state → result A * state.

Definition ret {A} (a : A) : M A := λ st, (Ok a, st).
Definition raise {A} (e : exn) : M A := λ st, (Raise e, st).
Definition bind {A B} (m : M A) (k : A → M B) : M B :=
  λ st, match m st with
        | (Ok a, st') => k a st'
        | (Raise e, st') => (Raise e, st')
        end.
Definition gets {A} (f : state → A) : M A := λ st, (Ok (f st), st).
Definition modify (f : state → state) : M unit := λ st, (Ok tt, f st).

Notation "x <- m ;; k" := (bind m (λ x, k))
  (at level 100, m at next level, right associativity).
Notation "m ;;; k" := (bind m (λ _, k))
  (at level 100, right associativity).

Definition set_disk (t : tree) (st : state) : state :=
  {| downloaded_count := downloaded_count st;
     failed_count := failed_count st;
     disk := t |}.

Definition incr_downloaded (st : state) : state :=
  {| downloaded_count := downloaded_count st + 1;
     failed_count := failed_count st;
     disk := disk st |}.

Definition incr_failed (st : state) : state :=
  {| downloaded_count := downloaded_count st;
     failed_count := failed_count st + 1;
     disk := disk st |}.

(** [file_path.exists()] *)
Definition path_exists (t : tree) (d f : string) : bool :=
  match t !! d with
  | Some files => bool_decide (is_Some (files !! f))
  | None => false
  end.

Definition put_file (t : tree) (d f : string) (c : list string) : tree :=
  <[d := <[f := c]> (default ∅ (t !! d))]> t.

(** How the download of one URL ended; the log line tells them apart. *)
Inductive status :=
| SkippedExisting   (* "Skipping existing file", returns [True] *)
| Downloaded        (* "Downloaded", returns [True] *)
| NonImageContent   (* "Skipping non-image content", returns [False] *)
| Failed (e : exn). (* "Failed to download", returns [False] *)

Definition returned (s : status) : bool :=
  match s with
  | SkippedExisting | Downloaded => true
  | NonImageContent | Failed _ => false
  end.

(** ** class AdsWorldScraper *)

Section AdsWorldScraper.

Variable lib : library.
Variable w : world.
(** [self.base_url] *)
Variable base_url : string.

(** *** get_page_content *)

Definition page_url (page_num : Z) : string :=
  base_url +:+ "/blog/feed?page=" +:+ pretty page_num.

Definition get_page_content (page_num : Z) : option string :=
  match http w (page_url page_num) with
  | Responded r => if status_ok r then Some (text r) else None
  | RequestError => None
  end.

(** *** extract_image_urls *)

(** [img.get('src') or img.get('data-src') or img.get('data-lazy-src')] *)
Definition select_src (img : img_tag) : option string :=
  PyStr.por (PyStr.por (img !! "src") (img !! "data-src"))
            (img !! "data-lazy-src").

(** Lines 59-64: relative to absolute; [urljoin] may raise. *)
Definition absolutize (src : string) : result string :=
  if PyStr.startswith "//" src then Ok ("https:" +:+ src)
  else if PyStr.startswith "/" src then Ok (base_url +:+ src)
  else if negb (PyStr.startswith "http" src) then
    match urljoin lib base_url src with
    | Some joined => Ok joined
    | None => Raise UrlError
    end
  else Ok src.

Definition skip_patterns : list string :=
  ["icon"; "logo"; "avatar"; "placeholder"].

(** Line 67: [any(skip_pattern in src.lower() for skip_pattern in ...)] *)
Definition skipped (src : string) : bool :=
  existsb (λ skip_pattern, PyStr.contains skip_pattern (PyStr.lower src))
          skip_patterns.

(** Lines 59-70 for one non-empty [src]: the URL appended to
    [image_urls], or [None] at [continue]. *)
Definition normalize (src : string) : result (option string) :=
  and_then (absolutize src)
    (λ src, Ok (if skipped src then None else Some src)).

(** The body of the [for img in img_tags] loop. *)
Definition image_url_of (img : img_tag) : result (option string) :=
  let src := select_src img in
  if PyStr.truthy src then normalize (default "" src) else Ok None.

(** The loop: [image_urls] in the order of the tags, unless the body
    raises at some tag. *)
Fixpoint collect_image_urls (img_tags : list img_tag)
    : result (list string) :=
  match img_tags with
  | [] => Ok []
  | img :: rest =>
      and_then (image_url_of img) (λ found,
      and_then (collect_image_urls rest) (λ image_urls,
        Ok match found with
           | Some src => src :: image_urls
           | None => image_urls
           end))
  end.

(** [list(set(image_urls))] keeps one copy of each URL in an order
    that depends on the string hashes of the process; [order] is that
    order, and [set_order] what is known of it. *)
Definition set_order (order : list string → list string) : Prop :=
  ∀ l, order l ≡ₚ remove_dups l.

(** The function has no [try]: what [urljoin] raises leaves it. *)
Definition extract_image_urls (order : list string → list string)
    (html_content : string) : result (list string) :=
  if String.eqb html_content "" then Ok []
  else
    and_then (collect_image_urls (find_all_img lib html_content))
      (λ image_urls, Ok (order image_urls)).

(** *** download_image *)

(** Line 82: [if '.' not in filename or len(filename) < 5] *)
Definition needs_synthetic (filename : string) : bool :=
  negb (PyStr.contains "." filename) || (PyStr.len filename <? 5)%Z.

(** Lines 79-83 *)
Definition filename_for (downloaded : Z) (path : string) : string :=
  let filename := PyStr.basename path in
  if needs_synthetic filename
  then "image_" +:+ pretty (downloaded + 1) +:+ ".jpg"
  else filename.

Definition page_dir_name (page_num : Z) : string :=
  "page_" +:+ pretty page_num.

Definition urlparse (image_url : string) : M string :=
  match urlparse_path lib image_url with
  | Some path => ret path
  | None => raise UrlError
  end.

(** [page_dir.mkdir(exist_ok=True)] *)
Definition mkdir_exist_ok (d : string) : M unit :=
  λ st, match disk st !! d with
        | Some _ => (Ok tt, st)
        | None =>
            if mkdir_fails w d then (Raise DirError, st)
            else (Ok tt, set_disk (<[d := ∅]> (disk st)) st)
        end.

(** [session.get(image_url, timeout=30, stream=True)] and
    [response.raise_for_status()] *)
Definition session_get (image_url : string) : M response :=
  match http w image_url with
  | Responded r => if status_ok r then ret r else raise RequestException
  | RequestError => raise RequestException
  end.

(** Lines 107-109: the file is created by [open], then receives the
    chunks one by one until something raises. *)
Definition save (d f : string) (r : response) : M unit :=
  λ st,
    let all_chunks st :=
      (if stream_breaks r then Raise StreamError else Ok tt,
       set_disk (put_file (disk st) d f (chunks r)) st) in
    match write_plan w d f with
    | OpenFails => (Raise WriteError, st)
    | NoFault => all_chunks st
    | WriteFails k =>
        if (k <? length (chunks r))%nat
        then (Raise WriteError,
              set_disk (put_file (disk st) d f (take k (chunks r))) st)
        else all_chunks st
    end.

Definition is_image (r : response) : bool :=
  PyStr.startswith "image/" (PyStr.lower (default "" (content_type r))).

(** [file_path.exists()] *)
Definition file_exists (d f : string) : M bool :=
  λ st, if path_exists (disk st) d f then (Ok true, st)
        else if stat_fails w d f then (Raise PathError, st)
        else (Ok false, st).

(** Lines 77-113, the body of [try]. *)
Definition download_body (image_url : string) (page_num : Z) : M status :=
  path <- urlparse image_url ;;
  downloaded <- gets downloaded_count ;;
  let filename := filename_for downloaded path in
  let page_dir := page_dir_name page_num in
  mkdir_exist_ok page_dir ;;;
  present <- file_exists page_dir filename ;;
  if present then ret SkippedExisting
  else
    response <- session_get image_url ;;
    if negb (is_image response) then ret NonImageContent
    else
      save page_dir filename response ;;;
      modify incr_downloaded ;;;
      ret Downloaded.

(** [download_image] with the branch taken; [except Exception] counts
    the failure. *)
Definition download_status (image_url : string) (page_num : Z)
    (st : state) : status * state :=
  match download_body image_url page_num st with
  | (Ok s, st') => (s, st')
  | (Raise e, st') => (Failed e, incr_failed st')
  end.

Definition download_image (image_url : string) (page_num : Z)
    (st : state) : bool * state :=
  let '(s, st') := download_status image_url page_num st in
  (returned s, st').

(** The runs of [download_image], statement by statement: the status
    and the state each way through the [try] block ends with. *)
Inductive download_run (image_url : string) (page_num : Z) (st : state)
    : status → state → Prop :=
| run_bad_url :
    urlparse_path lib image_url = None →
    download_run image_url page_num st (Failed UrlError) (incr_failed st)
| run_no_dir path e st1 :
    urlparse_path lib image_url = Some path →
    mkdir_exist_ok (page_dir_name page_num) st = (Raise e, st1) →
    download_run image_url page_num st (Failed e) (incr_failed st1)
| run_skipped path st1 :
    urlparse_path lib image_url = Some path →
    mkdir_exist_ok (page_dir_name page_num) st = (Ok tt, st1) →
    path_exists (disk st1) (page_dir_name page_num)
                (filename_for (downloaded_count st) path) = true →
    download_run image_url page_num st SkippedExisting st1
| run_no_response path e st1 st2 :
    urlparse_path lib image_url = Some path →
    mkdir_exist_ok (page_dir_name page_num) st = (Ok tt, st1) →
    path_exists (disk st1) (page_dir_name page_num)
                (filename_for (downloaded_count st) path) = false →
    session_get image_url st1 = (Raise e, st2) →
    stat_fails w (page_dir_name page_num)
               (filename_for (downloaded_count st) path) = false →
    download_run image_url page_num st (Failed e) (incr_failed st2)
| run_non_image path response st1 st2 :
    urlparse_path lib image_url = Some path →
    mkdir_exist_ok (page_dir_name page_num) st = (Ok tt, st1) →
    path_exists (disk st1) (page_dir_name page_num)
                (filename_for (downloaded_count st) path) = false →
    session_get image_url st1 = (Ok response, st2) →
    is_image response = false →
    stat_fails w (page_dir_name page_num)
               (filename_for (downloaded_count st) path) = false →
    download_run image_url page_num st NonImageContent st2
| run_not_saved path response e st1 st2 st3 :
    urlparse_path lib image_url = Some path →
    mkdir_exist_ok (page_dir_name page_num) st = (Ok tt, st1) →
    path_exists (disk st1) (page_dir_name page_num)
                (filename_for (downloaded_count st) path) = false →
    session_get image_url st1 = (Ok response, st2) →
    is_image response = true →
    save (page_dir_name page_num)
         (filename_for (downloaded_count st) path) response st2 =
      (Raise e, st3) →
    stat_fails w (page_dir_name page_num)
               (filename_for (downloaded_count st) path) = false →
    download_run image_url page_num st (Failed e) (incr_failed st3)
| run_downloaded path response st1 st2 st3 :
    urlparse_path lib image_url = Some path →
    mkdir_exist_ok (page_dir_name page_num) st = (Ok tt, st1) →
    path_exists (disk st1) (page_dir_name page_num)
                (filename_for (downloaded_count st) path) = false →
    session_get image_url st1 = (Ok response, st2) →
    is_image response = true →
    save (page_dir_name page_num)
         (filename_for (downloaded_count st) path) response st2 =
      (Ok tt, st3) →
    stat_fails w (page_dir_name page_num)
               (filename_for (downloaded_count st) path) = false →
    download_run image_url page_num st Downloaded (incr_downloaded st3)
| run_no_stat path st1 :
    urlparse_path lib image_url = Some path →
    mkdir_exist_ok (page_dir_name page_num) st = (Ok tt, st1) →
    path_exists (disk st1) (page_dir_name page_num)
                (filename_for (downloaded_count st) path) = false →
    stat_fails w (page_dir_name page_num)
               (filename_for (downloaded_count st) path) = true →
    download_run image_url page_num st (Failed PathError) (incr_failed st1).

(** Where [download_image] would put the file: page directory and
    file name; [None] when the URL does not parse. *)
Definition destination (image_url : string) (page_num : Z) (st : state)
    : option (string * string) :=
  match urlparse_path lib image_url with
  | Some path =>
      Some (page_dir_name page_num, filename_for (downloaded_count st) path)
  | None => None
  end.

(** *** find_actual_page_count *)

(** Line 183: [html_content and self.extract_image_urls(html_content)] *)
Definition has_content (order : list string → list string)
    (page_num : Z) : result bool :=
  match get_page_content page_num with
  | Some html_content =>
      if String.eqb html_content "" then Ok false
      else
        and_then (extract_image_urls order html_content)
          (λ image_urls, Ok (negb (bool_decide (image_urls = []))))
  | None => Ok false
  end.

(** The [while min_page < max_page] loop on the pair
    [(min_page, max_page)], for a test of the pages that always
    answers; [None] when [fuel] iterations do not reach the exit. *)
Fixpoint page_search (probe : Z → bool) (fuel : nat)
    (min_page max_page : Z) : option (Z * Z) :=
  if (min_page <? max_page)%Z then
    match fuel with
    | O => None
    | S fuel =>
        let mid_page := (min_page + max_page + 1) `div` 2 in
        if probe mid_page
        then page_search probe fuel mid_page max_page
        else page_search probe fuel min_page (mid_page - 1)
    end
  else Some (min_page, max_page).

(** The page the search between two bounds returns: [min_page]. *)
Definition locate (probe : Z → bool) (lower_bound upper_estimate : Z)
    : option Z :=
  fst <$> page_search probe (Z.to_nat (upper_estimate - lower_bound))
                      lower_bound upper_estimate.

(** The same loop for a test that may raise: the exception ends the
    loop and leaves the function, which has no [try]. *)
Fixpoint page_search_raising (probe : Z → result bool) (fuel : nat)
    (min_page max_page : Z) : option (result (Z * Z)) :=
  if (min_page <? max_page)%Z then
    match fuel with
    | O => None
    | S fuel =>
        let mid_page := (min_page + max_page + 1) `div` 2 in
        match probe mid_page with
        | Ok true => page_search_raising probe fuel mid_page max_page
        | Ok false => page_search_raising probe fuel min_page (mid_page - 1)
        | Raise e => Some (Raise e)
        end
    end
  else Some (Ok (min_page, max_page)).

Definition find_actual_page_count (order : list string → list string)
    : option (result Z) :=
  (λ found, and_then found (λ pages, Ok (fst pages))) <$>
    page_search_raising (has_content order) (Z.to_nat (1400 - 1)) 1 1400.

(** *** scrape_page *)

(** The [for image_url in image_urls] loop with its counter. *)
Fixpoint download_each (image_urls : list string) (page_num : Z)
    (downloaded : Z) (st : state) : Z * state :=
  match image_urls with
  | [] => (downloaded, st)
  | image_url :: rest =>
      let '(ok, st') := download_image image_url page_num st in
      download_each rest page_num
                    (if ok then downloaded + 1 else downloaded) st'
  end.

Definition scrape_page (order : list string → list string)
    (page_num : Z) (st : state) : result (Z * state) :=
  match get_page_content page_num with
  | Some html_content =>
      if String.eqb html_content "" then Ok (0, st)
      else
        and_then (extract_image_urls order html_content)
          (λ image_urls, Ok (download_each image_urls page_num 0 st))
  | None => Ok (0, st)
  end.

(** *** scrape_all_pages *)

(** [range(start_page, end_page + 1)] *)
Definition page_range (start_page end_page : Z) : list Z :=
  seqZ start_page (end_page + 1 - start_page).

(** Lines 215-232, one turn of the loop: the state [scrape_page]
    leaves, or, when it raises, the state as it was ([except Exception]
    logs and goes on; what raises in [scrape_page] raises before the
    first download). *)
Definition after_page (order : list string → list string)
    (page_num : Z) (st : state) : state :=
  match scrape_page order page_num st with
  | Ok (_, st') => st'
  | Raise _ => st
  end.

(** The [for page_num in range(...)] loop. The pauses ([time.sleep])
    and the progress lines change no state; an interrupt from the
    keyboard, which leaves the loop early, is not part of the model. *)
Definition scrape_pages (order : list string → list string)
    (pages : list Z) (st : state) : state :=
  foldl (λ st page_num, after_page order page_num st) st pages.

Definition scrape_all_pages (order : list string → list string)
    (start_page end_page : Z) (st : state) : state :=
  scrape_pages order (page_range start_page end_page) st.

(** *** main *)

(** Lines 250-267: the range [main] hands to [scrape_all_pages], from
    the answer typed and, for [custom], the two numbers typed ([None]
    for one that [int] rejects); [None] when [main] returns before
    scraping. *)
Definition chosen_range (max_pages : Z) (user_input : string)
    (start_typed end_typed : option Z) : option (Z * Z) :=
  if String.eqb (PyStr.lower user_input) "custom" then
    match start_typed, end_typed with
    | Some start_page, Some end_page =>
        if (start_page <? 1)%Z || (end_page <? start_page)%Z then None
        else Some (start_page, end_page)
    | _, _ => None
    end
  else if String.eqb (PyStr.lower user_input) "y" then Some (1, max_pages)
  else None.

(** [main] from the scraper it constructs, over a download directory
    that holds [t]. It has no [try] around [find_actual_page_count]:
    what the search raises ends the program. *)
Definition main (order : list string → list string) (user_input : string)
    (start_typed end_typed : option Z) (t : tree)
    : option (result state) :=
  let scraper := new_scraper t in
  found ← find_actual_page_count order;
  Some (and_then found (λ max_pages,
    Ok match chosen_range max_pages user_input start_typed end_typed with
       | Some (start_page, end_page) =>
           scrape_all_pages order start_page end_page scraper
       | None => scraper
       end)).

(** *** What one run logs *)

(** The URLs [scrape_page] iterates over: none when the page is not
    fetched or the extraction raises. *)
Definition page_image_urls (order : list string → list string)
    (page_num : Z) : list string :=
  match get_page_content page_num with
  | Some html_content =>
      match extract_image_urls order html_content with
      | Ok image_urls => image_urls
      | Raise _ => []
      end
  | None => []
  end.

(** The status of each download of the loop of [scrape_page], in
    order, with the state the loop leaves. *)
Fixpoint status_each (image_urls : list string) (page_num : Z)
    (st : state) : list status * state :=
  match image_urls with
  | [] => ([], st)
  | image_url :: rest =>
      let '(s, st') := download_status image_url page_num st in
      let '(ss, st'') := status_each rest page_num st' in
      (s :: ss, st'')
  end.

(** The status of every download of a crawl over [pages]. *)
Fixpoint crawl_statuses (order : list string → list string)
    (pages : list Z) (st : state) : list status :=
  match pages with
  | [] => []
  | page_num :: rest =>
      let '(ss, st') :=
        status_each (page_image_urls order page_num) page_num st in
      ss ++ crawl_statuses order rest st'
  end.

(** The file stored under a page directory and a file name. *)
Definition file_at (t : tree) (d f : string) : option (list string) :=
  t !! d ≫= (.!! f).

(** The URL has a file name of its own. *)
Definition named (url : string) : Prop :=
  ∀ path, urlparse_path lib url = Some path →
          needs_synthetic (PyStr.basename path) = false.

(** No URL of the crawled pages needs a synthesized file name. *)
Definition all_named (order : list string → list string)
    (pages : list Z) : Prop :=
  ∀ page_num image_url,
    page_num ∈ pages →
    image_url ∈ page_image_urls order page_num →
    named image_url.

(** The file of the URL is in the directory of the page. *)
Definition stored (t : tree) (page : Z) (url : string) : Prop :=
  ∃ path, urlparse_path lib url = Some path ∧
          path_exists t (page_dir_name page) (PyStr.basename path) = true.

(** Pages from [lo] to [hi] have content exactly up to [b]. *)
Definition content_bound (probe : Z → bool) (lo hi b : Z) : Prop :=
  ∀ p, lo ≤ p ≤ hi → (probe p = true ↔ p ≤ b).

End AdsWorldScraper.

(** ** A small site to run the scraper on *)

Module Demo.

Definition base_url : string := "https://www.adsoftheworld.com".

Fixpoint after_double_slash (s : string) : string :=
  match s with
  | String "/" (String "/" rest) => rest
  | String _ rest => after_double_slash rest
  | EmptyString => EmptyString
  end.

Fixpoint from_slash (s : string) : string :=
  match s with
  | String "/" _ => s
  | String _ rest => from_slash rest
  | EmptyString => EmptyString
  end.

Fixpoint before_query (s : string) : string :=
  match s with
  | String c rest =>
      if Ascii.eqb c "?" || Ascii.eqb c "#" then EmptyString
      else String c (before_query rest)
  | EmptyString => EmptyString
  end.

(** The path [urlparse] finds in an absolute [scheme://host/path?query]
    URL, the only shape the pages below hold. *)
Definition url_path (url : string) : option string :=
  Some (before_query (from_slash (after_double_slash url))).

Definition img (src : string) : img_tag := {[ "src" := src ]}.

Definition feed_page_1 : string :=
  "<div><img src='https://cdn.example.com/ads/spring.jpeg'>" +:+
  "<img src='https://cdn.example.com/ads/summer.jpeg'></div>".

Definition feed_page_2 : string :=
  "<p><img src='https://cdn.example.com/render?id=7'>" +:+
  "<img src='https://cdn.example.com/render?id=8'></p>".

(** One image three times, each time under another attribute. *)
Definition gallery_page : string :=
  "<img src='/media/launch.jpeg'><img data-src='/media/launch.jpeg'>" +:+
  "<img src='' data-lazy-src='/media/launch.jpeg'>".

Definition gallery_tags : list img_tag :=
  [ {[ "src" := "/media/launch.jpeg" ]};
    {[ "data-src" := "/media/launch.jpeg" ]};
    {[ "src" := ""; "data-lazy-src" := "/media/launch.jpeg" ]} ].

Definition render_page : string :=
  "<img src='https://cdn.example.com/render?id=9'>".

(** The site logo twice. *)
Definition logo_page : string :=
  "<img src='/Assets/Site-LOGO.png'><img src='/Assets/Site-LOGO.png'>".

(** A source that [urljoin] refuses (an open bracket in the host). *)
Definition bracket_page : string :=
  "<img src='/media/launch.jpeg'><img src='ftp://[bad/x.png'>".

(** The library on the pages above. *)
Definition lib : library := {|
  find_all_img html :=
    if String.eqb html feed_page_1 then
      [img "https://cdn.example.com/ads/spring.jpeg";
       img "https://cdn.example.com/ads/summer.jpeg"]
    else if String.eqb html feed_page_2 then
      [img "https://cdn.example.com/render?id=7";
       img "https://cdn.example.com/render?id=8"]
    else if String.eqb html gallery_page then gallery_tags
    else if String.eqb html render_page
    then [img "https://cdn.example.com/render?id=9"]
    else if String.eqb html logo_page
    then [img "/Assets/Site-LOGO.png"; img "/Assets/Site-LOGO.png"]
    else if String.eqb html bracket_page
    then [img "/media/launch.jpeg"; img "ftp://[bad/x.png"]
    else [];
  (* right for a base without a path and a [src] that is a relative
     path or has a scheme and a host; a host with an open bracket only
     is an invalid IPv6 URL *)
  urljoin base src :=
    if PyStr.contains "//[" src && negb (PyStr.contains "]" src) then None
    else if PyStr.contains "://" src then Some src
    else Some (base +:+ "/" +:+ src);
  urlparse_path := url_path;
|}.

Definition jpeg (body : list string) : http_result :=
  Responded {| status_ok := true; content_type := Some "image/jpeg";
               text := ""; chunks := body; stream_breaks := false |}.

Definition html_page (body : string) : http_result :=
  Responded {| status_ok := true; content_type := Some "text/html";
               text := body; chunks := [body]; stream_breaks := false |}.

(** Page 1 lists two images that download; page 2 lists two URLs
    without a file name: the first times out, the second serves an
    HTML error page. A third such URL, on no page, serves an image.
    Nothing else answers. *)
Definition site (url : string) : http_result :=
  if String.eqb url "https://www.adsoftheworld.com/blog/feed?page=1"
  then html_page feed_page_1
  else if String.eqb url "https://www.adsoftheworld.com/blog/feed?page=2"
  then html_page feed_page_2
  else if String.eqb url "https://cdn.example.com/ads/spring.jpeg"
  then jpeg ["JFIF-spring-1"; "JFIF-spring-2"]
  else if String.eqb url "https://cdn.example.com/ads/summer.jpeg"
  then jpeg ["JFIF-summer"]
  else if String.eqb url "https://cdn.example.com/render?id=8"
  then html_page "<h1>Not an image</h1>"
  else if String.eqb url "https://cdn.example.com/render?id=9"
  then jpeg ["JFIF-render"]
  else RequestError.

Definition w : world := {|
  http := site;
  mkdir_fails _ := false;
  stat_fails _ _ := false;
  write_plan _ _ := NoFault;
|}.

(** The same site with another page 2: one URL without a file name,
    which serves an image. *)
Definition w' : world := {|
  http url :=
    if String.eqb url "https://www.adsoftheworld.com/blog/feed?page=2"
    then html_page render_page
    else site url;
  mkdir_fails _ := false;
  stat_fails _ _ := false;
  write_plan _ _ := NoFault;
|}.

(** A site where no request succeeds. *)
Definition offline : world := {|
  http _ := RequestError;
  mkdir_fails _ := false;
  stat_fails _ _ := false;
  write_plan _ _ := NoFault;
|}.

(** One order [list(set(...))] may produce, and another. *)
Definition order : list string → list string := remove_dups.
Definition order' : list string → list string :=
  λ l, reverse (remove_dups l).

Definition empty_disk : tree := ∅.

(** Pages 1 to 7 have content and no page after them. *)
Definition seven_pages (p : Z) : bool := (p <=? 7)%Z.

End Demo.

(** ** The rest of the scraper *)

(** The pages the loop of [find_actual_page_count] fetches, in the
    order of the calls of [get_page_content], for a test of the pages
    that always answers (a test that raises ends the loop at the page
    where it does). *)
Fixpoint page_probes (probe : Z → bool) (fuel : nat)
    (min_page max_page : Z) : list Z :=
  if (min_page <? max_page)%Z then
    match fuel with
    | O => []
    | S fuel =>
        let mid_page := (min_page + max_page + 1) `div` 2 in
        mid_page ::
          if probe mid_page
          then page_probes probe fuel mid_page max_page
          else page_probes probe fuel min_page (mid_page - 1)
    end
  else [].

(** How many downloads of a list ended in a given way. *)
Definition is_downloaded (s : status) : bool :=
  match s with Downloaded => true | _ => false end.

Definition is_failed (s : status) : bool :=
  match s with Failed _ => true | _ => false end.

Definition count_status (p : status → bool) (ss : list status) : Z :=
  Z.of_nat (length (List.filter p ss)).

(** *** detect_pagination_structure *)

(** The double quote of the selectors. *)
Definition dquote : string := String "034"%char EmptyString.

Definition pagination_patterns : list string :=
  [ "a[href*=" +:+ dquote +:+ "page/" +:+ dquote +:+ "]";
    "a[href*=" +:+ dquote +:+ "?page=" +:+ dquote +:+ "]";
    "a[href*=" +:+ dquote +:+ "&page=" +:+ dquote +:+ "]";
    ".pagination a";
    ".pager a";
    "a:contains(" +:+ dquote +:+ "Next" +:+ dquote +:+ ")";
    "a:contains(" +:+ dquote +:+ ">" +:+ dquote +:+ ")";
    "[data-page]" ].

Definition infinite_scroll_patterns : list string :=
  [ "[data-infinite-scroll]"; ".infinite-scroll"; "[data-load-more]";
    ".load-more" ].

Section Pagination.

Variable w : world.
Variable base_url : string.
(** [BeautifulSoup(html, 'html.parser').select(pattern)]: the attribute
    dictionaries of the elements the selector matches. *)
Variable select : string → string → list img_tag.

(** Lines 147-151: one of [links[:5]] has a non-empty [href]. *)
Definition has_href (links : list img_tag) : bool :=
  existsb (λ link, PyStr.truthy (link !! "href")) (take 5 links).

(** Lines 143-151: the first pattern whose first five links hold an
    [href]. *)
Fixpoint first_pagination (html : string) (patterns : list string)
    : option string :=
  match patterns with
  | [] => None
  | pattern :: rest =>
      if has_href (select html pattern) then Some pattern
      else first_pagination html rest
  end.

(** Lines 161-165: some pattern matches an element. *)
Definition infinite_scroll (html : string) : bool :=
  existsb (λ pattern,
             negb (bool_decide (select html pattern = [])))
          infinite_scroll_patterns.

Definition detect_pagination_structure : option string :=
  match get_page_content w base_url 1 with
  | Some html_content =>
      if String.eqb html_content "" then None
      else
        match first_pagination html_content pagination_patterns with
        | Some pattern => Some pattern
        | None =>
            if infinite_scroll html_content then Some "infinite_scroll"
            else None
        end
  | None => None
  end.

End Pagination.

(** ** A site with faults *)

Module Faulty.

(** The connection drops after the first chunk of the spring image. *)
Definition site (url : string) : http_result :=
  if String.eqb url "https://cdn.example.com/ads/spring.jpeg"
  then Responded {| status_ok := true; content_type := Some "image/jpeg";
                    text := ""; chunks := ["JFIF-spring-1"];
                    stream_breaks := true |}
  else Demo.site url.

Definition w : world := {|
  http := site;
  mkdir_fails _ := false;
  stat_fails _ _ := false;
  write_plan _ _ := NoFault;
|}.

(** A first page with a pager whose sixth link only has an [href],
    and a load-more button. *)
Definition pager_page : string :=
  "<div class='pager'><a>1</a><a>2</a><a>3</a><a>4</a><a>5</a>" +:+
  "<a href='/blog/feed/6'>6</a></div><div class='load-more'></div>".

Definition link (href : string) : img_tag := {[ "href" := href ]}.

Definition select (html pattern : string) : list img_tag :=
  if String.eqb html pager_page then
    if String.eqb pattern ".pager a"
    then [∅; ∅; ∅; ∅; ∅; link "/blog/feed/6"]
    else if String.eqb pattern ".load-more"
    then [{[ "class" := "load-more" ]}]
    else []
  else [].

Definition pager_site : world := {|
  http url :=
    if String.eqb url "https://www.adsoftheworld.com/blog/feed?page=1"
    then Demo.html_page pager_page
    else RequestError;
  mkdir_fails _ := false;
  stat_fails _ _ := false;
  write_plan _ _ := NoFault;
|}.

(** Every feed page holds a source that [urljoin] refuses. *)
Definition bracket_site : world := {|
  http _ := Demo.html_page Demo.bracket_page;
  mkdir_fails _ := false;
  stat_fails _ _ := false;
  write_plan _ _ := NoFault;
|}.

(** The file system refuses the file names of page 2. *)
Definition long_names : world := {|
  http := Demo.site;
  mkdir_fails _ := false;
  stat_fails d _ := String.eqb d "page_2";
  write_plan _ _ := NoFault;
|}.

(** Content on pages 2 to 4 and on page 9, none elsewhere. *)
Definition patchy (p : Z) : bool :=
  ((2 <=? p) && (p <=? 4) || (p =? 9))%Z.

End Faulty.

(** * Properties *)

Example lower_mixed : PyStr.lower "Image/PNG; Q=1" = "image/png; q=1".
Proof. reflexivity. Qed.

Example basename_nested : PyStr.basename "/a/b/photo.jpeg" = "photo.jpeg".
Proof. reflexivity. Qed.

Example basename_trailing_slash : PyStr.basename "/a/b/" = "".
Proof. reflexivity. Qed.

Example contains_inner : PyStr.contains "logo" "https://h/x-logo-2.png" = true.
Proof. reflexivity. Qed.

(** [len] counts characters: the euro sign is one, in three bytes. *)
Example len_euro :
  let euro := String "226" (String "130" (String "172" "")) in
  PyStr.len (euro +:+ ".jp") = 4 ∧
  String.length (euro +:+ ".jp") = 6%nat ∧
  needs_synthetic (euro +:+ ".jp") = true ∧
  needs_synthetic (euro +:+ ".jpg") = false.
Proof. repeat split; reflexivity. Qed.

Example page_dir_17 : page_dir_name 17 = "page_17".
Proof. reflexivity. Qed.

Example demo_url_path :
  Demo.url_path "https://cdn.example.com/render?id=7" = Some "/render".
Proof. reflexivity. Qed.

(** ** The order of [list(set(...))] *)

Section SetOrder.

Variable order : list string → list string.
Hypothesis order_ok : set_order order.

Lemma order_NoDup l : NoDup (order l).
Proof. rewrite (order_ok l). apply NoDup_remove_dups. Qed.

Lemma order_elem_of l u : u ∈ order l ↔ u ∈ l.
Proof. rewrite (order_ok l). apply elem_of_remove_dups. Qed.

Lemma order_nil : order [] = [].
Proof. apply Permutation_nil_r. rewrite (order_ok []). done. Qed.

Lemma order_replicate n u : order (replicate (S n) u) = [u].
Proof.
  apply Permutation_singleton_r. rewrite (order_ok _).
  induction n as [|n IH]; [done|].
  change (replicate (S (S n)) u) with (u :: replicate (S n) u).
  cbn [remove_dups]. destruct (decide_rel _ _ _) as [_|Hnot]; [exact IH|].
  destruct Hnot. by left.
Qed.

End SetOrder.

Lemma remove_dups_set_order : set_order remove_dups.
Proof. by intros l. Qed.

Lemma reverse_remove_dups_set_order : set_order Demo.order'.
Proof. intros l. unfold Demo.order'. by rewrite reverse_Permutation. Qed.

(** ** URL normalizer and image extractor *)

Section Extractor.

Variable lib : library.
Variable base_url : string.

Lemma skipped_true src pat :
  pat ∈ skip_patterns →
  PyStr.contains pat (PyStr.lower src) = true →
  skipped src = true.
Proof.
  intros Hin Hsub. unfold skipped. apply existsb_exists.
  exists pat. split; [by apply list_elem_of_In | exact Hsub].
Qed.

Lemma skipped_false src pat :
  skipped src = false →
  pat ∈ skip_patterns →
  PyStr.contains pat (PyStr.lower src) = false.
Proof.
  intros Hskip Hin.
  destruct (PyStr.contains pat (PyStr.lower src)) eqn:E; [|done].
  by rewrite (skipped_true _ _ Hin E) in Hskip.
Qed.

Lemma normalize_Some src u :
  normalize lib base_url src = Ok (Some u) →
  absolutize lib base_url src = Ok u ∧ skipped u = false.
Proof.
  unfold normalize.
  destruct (absolutize lib base_url src) as [v|e]; simpl; [|done].
  destruct (skipped v) eqn:E; [done|]. by intros [= <-].
Qed.

Lemma image_url_of_Some img u :
  image_url_of lib base_url img = Ok (Some u) → skipped u = false.
Proof.
  unfold image_url_of.
  destruct (PyStr.truthy _); [|done]. by intros [_ ?]%normalize_Some.
Qed.

(** What the loop over the tags returns, when it returns. *)
Lemma elem_of_collect u img_tags image_urls :
  collect_image_urls lib base_url img_tags = Ok image_urls →
  u ∈ image_urls ↔
  ∃ img, img ∈ img_tags ∧ image_url_of lib base_url img = Ok (Some u).
Proof.
  revert image_urls. induction img_tags as [|img rest IH]; simpl.
  - intros ? [= <-].
    split; [by intros ?%elem_of_nil | by intros (? & ?%elem_of_nil & _)].
  - intros image_urls.
    destruct (image_url_of lib base_url img) as [found|e] eqn:E;
      simpl; [|done].
    destruct (collect_image_urls lib base_url rest) as [urls|e];
      simpl; [|done].
    specialize (IH urls eq_refl). intros [= <-].
    destruct found as [v|].
    + rewrite elem_of_cons, IH. split.
      * intros [-> | (i & Hi & Hu)].
        -- exists img. split; [by left | done].
        -- exists i. split; [by right | done].
      * intros (i & [-> | Hi]%elem_of_cons & Hu).
        -- left. congruence.
        -- right. by exists i.
    + rewrite IH. split.
      * intros (i & Hi & Hu). exists i. split; [by right | done].
      * intros (i & [-> | Hi]%elem_of_cons & Hu); [congruence|].
        by exists i.
Qed.

(** The loop raises exactly when its body raises at some tag. *)
Lemma collect_raises img_tags :
  (∃ e, collect_image_urls lib base_url img_tags = Raise e) ↔
  ∃ img e, img ∈ img_tags ∧ image_url_of lib base_url img = Raise e.
Proof.
  induction img_tags as [|img rest IH]; simpl.
  - split; [by intros [? ?] | by intros (? & ? & ?%elem_of_nil & _)].
  - destruct (image_url_of lib base_url img) as [found|e] eqn:E; simpl.
    + destruct (collect_image_urls lib base_url rest) as [urls|e]; simpl.
      * split; [by intros [? ?]|].
        intros (i & e & [->|Hi]%elem_of_cons & He); [congruence|].
        destruct (proj2 IH) as [? ?]; [by exists i, e | done].
      * split; [|by exists e]. intros _.
        destruct (proj1 IH) as (i & e' & Hi & He); [by exists e|].
        exists i, e'. split; [by right | done].
    + split; [|by exists e]. intros _.
      exists img, e. split; [by left | done].
Qed.

Lemma collect_same u img_tags :
  Forall (λ img, image_url_of lib base_url img = Ok (Some u)) img_tags →
  collect_image_urls lib base_url img_tags =
    Ok (replicate (length img_tags) u).
Proof.
  induction 1 as [|img rest Himg _ IH]; simpl; [done|].
  by rewrite Himg, IH.
Qed.

Lemma collect_none img_tags :
  Forall (λ img, image_url_of lib base_url img = Ok None) img_tags →
  collect_image_urls lib base_url img_tags = Ok [].
Proof.
  induction 1 as [|img rest Himg _ IH]; simpl; [done|].
  by rewrite Himg, IH.
Qed.

Lemma collect_all_raise e img_tags :
  img_tags ≠ [] →
  Forall (λ img, image_url_of lib base_url img = Raise e) img_tags →
  collect_image_urls lib base_url img_tags = Raise e.
Proof.
  intros Hne. destruct 1 as [|img rest Himg _]; [done|].
  simpl. by rewrite Himg.
Qed.

(** An element with a non-empty source yields what [normalize] makes
    of it. *)
Lemma image_url_of_src img src :
  select_src img = Some src →
  src ≠ "" →
  image_url_of lib base_url img = normalize lib base_url src.
Proof.
  unfold image_url_of. intros -> Hne%String.eqb_neq. simpl.
  by rewrite Hne.
Qed.

Section WithOrder.

Variable order : list string → list string.
Hypothesis order_ok : set_order order.

Lemma extract_inv html image_urls :
  extract_image_urls lib base_url order html = Ok image_urls →
  (html = "" ∧ image_urls = []) ∨
  (html ≠ "" ∧
   ∃ collected,
     collect_image_urls lib base_url (find_all_img lib html) = Ok collected ∧
     image_urls = order collected).
Proof.
  unfold extract_image_urls.
  destruct (String.eqb_spec html "") as [->|Hne].
  - intros [= <-]. by left.
  - destruct (collect_image_urls lib base_url _) as [collected|e];
      simpl; [|done].
    intros [= <-]. right. split; [done|]. by exists collected.
Qed.

Lemma extract_NoDup html image_urls :
  extract_image_urls lib base_url order html = Ok image_urls →
  NoDup image_urls.
Proof.
  intros [[_ ->]|(_ & collected & _ & ->)]%extract_inv;
    [constructor | by apply order_NoDup].
Qed.

Lemma extract_not_skipped html image_urls u :
  extract_image_urls lib base_url order html = Ok image_urls →
  u ∈ image_urls → skipped u = false.
Proof.
  intros [[_ ->]|(_ & collected & Hcollect & ->)]%extract_inv;
    [by intros ?%elem_of_nil|].
  rewrite (order_elem_of _ order_ok), (elem_of_collect _ _ _ Hcollect).
  intros (img & _ & Hu). by eapply image_url_of_Some.
Qed.

(** Another order returns the same URLs. *)
Lemma extract_elem_of_order (order' : list string → list string) html
    image_urls :
  set_order order' →
  extract_image_urls lib base_url order html = Ok image_urls →
  ∃ image_urls',
    extract_image_urls lib base_url order' html = Ok image_urls' ∧
    ∀ u, u ∈ image_urls ↔ u ∈ image_urls'.
Proof.
  intros Hord'. unfold extract_image_urls.
  destruct (String.eqb html ""); [intros [= <-]; by exists []|].
  destruct (collect_image_urls lib base_url _) as [collected|e];
    simpl; [|done].
  intros [= <-]. exists (order' collected). split; [done|].
  intros u. by rewrite (order_elem_of _ order_ok), (order_elem_of _ Hord').
Qed.

Lemma extract_raises_order (order' : list string → list string) html e :
  extract_image_urls lib base_url order html = Raise e →
  extract_image_urls lib base_url order' html = Raise e.
Proof.
  unfold extract_image_urls. destruct (String.eqb html ""); [done|].
  by destruct (collect_image_urls lib base_url _).
Qed.

End WithOrder.

End Extractor.

(** C6, as the code has it. What [extract_image_urls] returns never
    repeats a URL; an empty body and a body without image elements give
    the empty list. A body whose image elements (at least one) all
    share one non-empty source gives the absolute URL of that source
    once when the skip filter lets it pass, the empty list when the
    filter rejects it, and the error of [urljoin] when the source
    cannot be made absolute. More generally, image elements that all
    yield the same URL give that URL once, and image elements that all
    yield none give the empty list. *)
Theorem extract_returns_set (lib : library) (base_url : string)
    (order : list string → list string) (html : string) :
  set_order order →
  (∀ image_urls,
     extract_image_urls lib base_url order html = Ok image_urls →
     NoDup image_urls) ∧
  extract_image_urls lib base_url order "" = Ok [] ∧
  (find_all_img lib html = [] →
   extract_image_urls lib base_url order html = Ok []) ∧
  (∀ src, html ≠ "" →
          find_all_img lib html ≠ [] →
          src ≠ "" →
          Forall (λ img, select_src img = Some src) (find_all_img lib html) →
          match absolutize lib base_url src with
          | Ok u =>
              extract_image_urls lib base_url order html =
                Ok (if skipped u then [] else [u])
          | Raise e =>
              extract_image_urls lib base_url order html = Raise e
          end) ∧
  (∀ u, html ≠ "" →
        find_all_img lib html ≠ [] →
        Forall (λ img, image_url_of lib base_url img = Ok (Some u))
               (find_all_img lib html) →
        extract_image_urls lib base_url order html = Ok [u]) ∧
  (Forall (λ img, image_url_of lib base_url img = Ok None)
          (find_all_img lib html) →
   extract_image_urls lib base_url order html = Ok []).
Proof.
  intros Hord.
  assert (Hsame : ∀ u, html ≠ "" →
            find_all_img lib html ≠ [] →
            Forall (λ img, image_url_of lib base_url img = Ok (Some u))
                   (find_all_img lib html) →
            extract_image_urls lib base_url order html = Ok [u]).
  { intros u Hhtml Hsome Hall. unfold extract_image_urls.
    apply String.eqb_neq in Hhtml. rewrite Hhtml.
    rewrite (collect_same _ _ _ _ Hall). simpl.
    destruct (find_all_img lib html) as [|img rest]; [done|].
    f_equal. apply (order_replicate _ Hord (length rest)). }
  assert (Hnone : Forall (λ img, image_url_of lib base_url img = Ok None)
                         (find_all_img lib html) →
                  extract_image_urls lib base_url order html = Ok []).
  { intros Hall. unfold extract_image_urls.
    rewrite (collect_none _ _ _ Hall). simpl.
    rewrite (order_nil _ Hord). by destruct (String.eqb html ""). }
  split_and!; [| done | | | done | done].
  - intros image_urls. by apply extract_NoDup.
  - intros Hnil. unfold extract_image_urls. rewrite Hnil. simpl.
    rewrite (order_nil _ Hord). by destruct (String.eqb html "").
  - intros src Hhtml Hsome Hsrc Hall.
    assert (Heach : Forall (λ img, image_url_of lib base_url img =
                                     normalize lib base_url src)
                           (find_all_img lib html)).
    { eapply Forall_impl; [exact Hall|]. intros img Himg.
      by apply image_url_of_src. }
    unfold normalize in Heach.
    destruct (absolutize lib base_url src) as [u|e]; simpl in Heach.
    + destruct (skipped u); [by apply Hnone | by apply Hsame].
    + unfold extract_image_urls.
      apply String.eqb_neq in Hhtml. rewrite Hhtml.
      by rewrite (collect_all_raise _ _ e _ Hsome Heach).
Qed.

Lemma extract_returns_set_witness :
  set_order Demo.order' ∧
  Forall (λ img, select_src img = Some "/media/launch.jpeg")
         (find_all_img Demo.lib Demo.gallery_page) ∧
  extract_image_urls Demo.lib Demo.base_url Demo.order' Demo.gallery_page =
    Ok ["https://www.adsoftheworld.com/media/launch.jpeg"].
Proof.
  assert (Hall : Forall (λ img, select_src img = Some "/media/launch.jpeg")
                        (find_all_img Demo.lib Demo.gallery_page))
    by (repeat constructor).
  split; [exact reverse_remove_dups_set_order|].
  split; [exact Hall|].
  apply (proj1 (proj2 (proj2 (proj2
           (extract_returns_set Demo.lib Demo.base_url Demo.order'
              Demo.gallery_page reverse_remove_dups_set_order))))
           "/media/launch.jpeg");
    [discriminate | discriminate | discriminate | exact Hall].
Defined.

(** C6 as stated fails: two image elements share the URL of the site
    logo and the result is empty, not a one-element set; and a body
    whose second source [urljoin] refuses gives an error, not a set. *)
Lemma extract_returns_set_counterexample :
  find_all_img Demo.lib Demo.logo_page =
    [Demo.img "/Assets/Site-LOGO.png"; Demo.img "/Assets/Site-LOGO.png"] ∧
  Forall (λ img, select_src img = Some "/Assets/Site-LOGO.png")
         (find_all_img Demo.lib Demo.logo_page) ∧
  extract_image_urls Demo.lib Demo.base_url Demo.order Demo.logo_page =
    Ok [] ∧
  extract_image_urls Demo.lib Demo.base_url Demo.order Demo.bracket_page =
    Raise UrlError.
Proof.
  split; [reflexivity|]. split; [repeat constructor|]. split; reflexivity.
Qed.

(** C7. A source whose absolute URL, in lower case, contains one of
    [icon], [logo], [avatar], [placeholder] is rejected by [normalize],
    and no list that [extract_image_urls] returns holds that URL. *)
Theorem skip_patterns_rejected (lib : library) (base_url : string)
    (src pat u : string) :
  pat ∈ skip_patterns →
  absolutize lib base_url src = Ok u →
  PyStr.contains pat (PyStr.lower u) = true →
  normalize lib base_url src = Ok None ∧
  ∀ order html image_urls,
    set_order order →
    extract_image_urls lib base_url order html = Ok image_urls →
    u ∉ image_urls.
Proof.
  intros Hpat Habs Hsub.
  assert (Hskip : skipped u = true) by (by eapply skipped_true).
  split.
  - unfold normalize. rewrite Habs. simpl. by rewrite Hskip.
  - intros order html image_urls Hord Hex Hin.
    apply (extract_not_skipped _ _ _ Hord _ _ _ Hex) in Hin. congruence.
Qed.

Lemma skip_patterns_rejected_witness :
  "logo" ∈ skip_patterns ∧
  absolutize Demo.lib Demo.base_url "/Assets/Site-LOGO.png" =
    Ok "https://www.adsoftheworld.com/Assets/Site-LOGO.png" ∧
  PyStr.contains "logo"
    (PyStr.lower "https://www.adsoftheworld.com/Assets/Site-LOGO.png")
    = true ∧
  normalize Demo.lib Demo.base_url "/Assets/Site-LOGO.png" = Ok None.
Proof.
  assert (Hin : "logo" ∈ skip_patterns)
    by (apply list_elem_of_further, list_elem_of_here).
  split; [exact Hin|]. split; [reflexivity|]. split; [reflexivity|].
  exact (proj1 (skip_patterns_rejected Demo.lib Demo.base_url
                  "/Assets/Site-LOGO.png" "logo" _ Hin eq_refl eq_refl)).
Defined.

(** C9, as the code has it. A source that starts with [//] is resolved
    to [https:] followed by the source; [normalize] returns that URL
    when the skip filter lets it through. *)
Theorem protocol_relative_https (lib : library) (base_url : string)
    (src : string) :
  PyStr.startswith "//" src = true →
  absolutize lib base_url src = Ok ("https:" +:+ src) ∧
  (skipped ("https:" +:+ src) = false →
   normalize lib base_url src = Ok (Some ("https:" +:+ src))) ∧
  (skipped ("https:" +:+ src) = true →
   normalize lib base_url src = Ok None).
Proof.
  intros Hpre.
  assert (Habs : absolutize lib base_url src = Ok ("https:" +:+ src))
    by (unfold absolutize; by rewrite Hpre).
  split; [exact Habs|].
  unfold normalize. rewrite Habs. simpl.
  split; intros ->; reflexivity.
Qed.

Lemma protocol_relative_https_witness :
  PyStr.startswith "//" "//cdn.example.com/ads/spring.jpeg" = true ∧
  normalize Demo.lib Demo.base_url "//cdn.example.com/ads/spring.jpeg" =
    Ok (Some "https://cdn.example.com/ads/spring.jpeg").
Proof.
  split; [reflexivity|].
  refine (proj1 (proj2 (protocol_relative_https Demo.lib Demo.base_url
                          "//cdn.example.com/ads/spring.jpeg" _)) _);
    reflexivity.
Defined.

(** C9 as stated fails: a protocol-relative source with [logo] in it
    has no normalized URL. *)
Lemma protocol_relative_https_counterexample :
  PyStr.startswith "//" "//cdn.example.com/assets/logo.png" = true ∧
  normalize Demo.lib Demo.base_url "//cdn.example.com/assets/logo.png" ≠
    Ok (Some "https://cdn.example.com/assets/logo.png").
Proof. split; [reflexivity | discriminate]. Qed.

(** ** Page-bound search *)

(** The probe page lies above the floor and not above the ceiling. *)
Lemma mid_page_between lo hi :
  lo < hi → lo < (lo + hi + 1) `div` 2 ≤ hi.
Proof. intros Hlt. Z.div_mod_to_equations. lia. Qed.

Section PageSearch.

Variable probe : Z → bool.

Lemma page_search_unfold fuel lo hi :
  lo < hi →
  page_search probe (S fuel) lo hi =
    if probe ((lo + hi + 1) `div` 2)
    then page_search probe fuel ((lo + hi + 1) `div` 2) hi
    else page_search probe fuel lo ((lo + hi + 1) `div` 2 - 1).
Proof. intros Hlt. simpl. by rewrite (proj2 (Z.ltb_lt _ _) Hlt). Qed.

Lemma page_search_exit fuel lo hi :
  hi ≤ lo → page_search probe fuel lo hi = Some (lo, hi).
Proof.
  intros Hle. destruct fuel; simpl;
    by rewrite (proj2 (Z.ltb_ge _ _) Hle).
Qed.

(** The loop ends within [max_page - min_page] iterations, whatever
    the pages hold, and floor and ceiling then meet. *)
Lemma page_search_terminates fuel lo hi :
  lo ≤ hi →
  (Z.to_nat (hi - lo) ≤ fuel)%nat →
  ∃ m, lo ≤ m ≤ hi ∧ page_search probe fuel lo hi = Some (m, m).
Proof.
  revert lo hi. induction fuel as [|fuel IH]; intros lo hi Hle Hfuel.
  - exists lo. assert (hi = lo) as -> by lia.
    split; [lia | by apply page_search_exit].
  - destruct (decide (lo < hi)) as [Hlt|Hge].
    + rewrite page_search_unfold by done.
      set (mid := (lo + hi + 1) `div` 2).
      assert (lo < mid ≤ hi) by (by apply mid_page_between).
      destruct (probe mid).
      * destruct (IH mid hi) as (m & Hm & ->); [lia | lia |].
        exists m. split; [lia | done].
      * destruct (IH lo (mid - 1)) as (m & Hm & ->); [lia | lia |].
        exists m. split; [lia | done].
    + exists lo. assert (hi = lo) as -> by lia.
      split; [lia | by apply page_search_exit].
Qed.

(** With content on the pages from [lo + 1] to [b] and on none of the
    later ones, floor and ceiling meet at [b]. *)
Lemma page_search_finds fuel lo hi b :
  lo ≤ b ≤ hi →
  (∀ p, lo < p ≤ hi → (probe p = true ↔ p ≤ b)) →
  (Z.to_nat (hi - lo) ≤ fuel)%nat →
  page_search probe fuel lo hi = Some (b, b).
Proof.
  revert lo hi.
  induction fuel as [|fuel IH]; intros lo hi Hb Hmono Hfuel.
  - assert (hi = lo) as -> by lia. assert (b = lo) as -> by lia.
    by apply page_search_exit.
  - destruct (decide (lo < hi)) as [Hlt|Hge].
    + rewrite page_search_unfold by done.
      set (mid := (lo + hi + 1) `div` 2).
      assert (Hmid : lo < mid ≤ hi) by (by apply mid_page_between).
      destruct (probe mid) eqn:Hprobe.
      * apply Hmono in Hprobe; [|done].
        apply IH; [lia | | lia].
        intros p Hp. apply Hmono. lia.
      * assert (b < mid).
        { destruct (decide (mid ≤ b)) as [Hle|]; [|lia].
          apply Hmono in Hle; [congruence | done]. }
        apply IH; [lia | | lia].
        intros p Hp. apply Hmono. lia.
    + assert (hi = lo) as -> by lia. assert (b = lo) as -> by lia.
      by apply page_search_exit.
Qed.

Lemma locate_terminates lo hi :
  lo ≤ hi → ∃ m, lo ≤ m ≤ hi ∧ locate probe lo hi = Some m.
Proof.
  intros Hle.
  destruct (page_search_terminates (Z.to_nat (hi - lo)) lo hi)
    as (m & Hm & Hsearch); [done | done |].
  exists m. split; [done|]. unfold locate. by rewrite Hsearch.
Qed.

End PageSearch.

(** ** The search when the test of a page may raise *)

(** While the test answers, the loop is the loop above. *)
Lemma page_search_raising_answers probe test fuel lo hi :
  (∀ p, lo < p ≤ hi → probe p = Ok (test p)) →
  page_search_raising probe fuel lo hi = Ok <$> page_search test fuel lo hi.
Proof.
  revert lo hi. induction fuel as [|fuel IH]; intros lo hi Hans.
  - simpl. by destruct (lo <? hi).
  - destruct (decide (lo < hi)) as [Hlt|Hge].
    + rewrite page_search_unfold by done. simpl.
      rewrite (proj2 (Z.ltb_lt _ _) Hlt).
      pose proof (mid_page_between lo hi Hlt) as Hmid.
      rewrite (Hans _ Hmid).
      destruct (test _); apply IH; intros p Hp; apply Hans; lia.
    + rewrite page_search_exit by lia. simpl.
      assert (Hle : hi ≤ lo) by lia.
      by rewrite (proj2 (Z.ltb_ge _ _) Hle).
Qed.

(** The loop ends within [max_page - min_page] iterations, with floor
    and ceiling met or with what the test raised. *)
Lemma page_search_raising_terminates probe fuel lo hi :
  lo ≤ hi →
  (Z.to_nat (hi - lo) ≤ fuel)%nat →
  (∃ m, lo ≤ m ≤ hi ∧
        page_search_raising probe fuel lo hi = Some (Ok (m, m))) ∨
  (∃ e, page_search_raising probe fuel lo hi = Some (Raise e)).
Proof.
  revert lo hi. induction fuel as [|fuel IH]; intros lo hi Hle Hfuel.
  - left. exists lo. assert (hi = lo) as -> by lia.
    split; [lia|]. simpl. by rewrite Z.ltb_irrefl.
  - destruct (decide (lo < hi)) as [Hlt|Hge].
    + simpl. rewrite (proj2 (Z.ltb_lt _ _) Hlt).
      pose proof (mid_page_between lo hi Hlt) as Hmid.
      destruct (probe _) as [[|]|e]; [| |right; by exists e].
      * destruct (IH ((lo + hi + 1) `div` 2) hi)
          as [(m & Hm & ->)|[e ->]]; [lia | lia | |].
        -- left. exists m. split; [lia | done].
        -- right. by exists e.
      * destruct (IH lo ((lo + hi + 1) `div` 2 - 1))
          as [(m & Hm & ->)|[e ->]]; [lia | lia | |].
        -- left. exists m. split; [lia | done].
        -- right. by exists e.
    + left. exists lo. assert (hi = lo) as -> by lia.
      split; [lia|]. simpl. by rewrite Z.ltb_irrefl.
Qed.

(** [find_actual_page_count] returns a page between 1 and 1400 or
    raises what the extraction raised on a page it fetched. *)
Lemma find_actual_page_count_total lib w base_url order :
  (∃ m, 1 ≤ m ≤ 1400 ∧
        find_actual_page_count lib w base_url order = Some (Ok m)) ∨
  (∃ e, find_actual_page_count lib w base_url order = Some (Raise e)).
Proof.
  unfold find_actual_page_count.
  destruct (page_search_raising_terminates
              (has_content lib w base_url order)
              (Z.to_nat (1400 - 1)) 1 1400)
    as [(m & Hm & ->)|[e ->]]; [lia | done | |].
  - left. by exists m.
  - right. by exists e.
Qed.

(** What the loop raises, the test raised on a page between the
    bounds. *)
Lemma page_search_raising_raises probe fuel lo hi e :
  page_search_raising probe fuel lo hi = Some (Raise e) →
  ∃ p, lo < p ≤ hi ∧ probe p = Raise e.
Proof.
  revert lo hi. induction fuel as [|fuel IH]; intros lo hi; simpl.
  - by destruct (lo <? hi).
  - destruct (lo <? hi) eqn:Hlt; [|done].
    apply Z.ltb_lt in Hlt.
    pose proof (mid_page_between lo hi Hlt) as Hmid.
    destruct (probe ((lo + hi + 1) `div` 2)) as [[|]|e'] eqn:Hprobe.
    + intros (p & Hp & He)%IH. exists p. split; [lia | done].
    + intros (p & Hp & He)%IH. exists p. split; [lia | done].
    + intros [= ->]. by exists ((lo + hi + 1) `div` 2).
Qed.

(** The test of a page raises only what the extraction raises on the
    body fetched. *)
Lemma has_content_raises lib w base_url order p e :
  has_content lib w base_url order p = Raise e →
  ∃ html,
    get_page_content w base_url p = Some html ∧
    extract_image_urls lib base_url order html = Raise e.
Proof.
  unfold has_content.
  destruct (get_page_content w base_url p) as [html|]; [|done].
  destruct (String.eqb html ""); [done|].
  destruct (extract_image_urls lib base_url order html) as [urls|e']
    eqn:Hrun; simpl; [done|].
  intros [= ->]. by exists html.
Qed.

Lemma find_actual_page_count_raises lib w base_url order e :
  find_actual_page_count lib w base_url order = Some (Raise e) →
  ∃ p html,
    1 < p ≤ 1400 ∧
    get_page_content w base_url p = Some html ∧
    extract_image_urls lib base_url order html = Raise e.
Proof.
  unfold find_actual_page_count.
  destruct (page_search_raising _ _ 1 1400) as [[pages|e']|] eqn:Hrun;
    simpl; [done| |done].
  intros [= ->].
  apply page_search_raising_raises in Hrun as (p & Hp & He).
  apply has_content_raises in He as (html & Hpage & He).
  by exists p, html.
Qed.

(** On a feed whose pages answer, it is the search above. *)
Lemma find_actual_page_count_answers lib w base_url order test :
  (∀ p, 1 < p ≤ 1400 → has_content lib w base_url order p = Ok (test p)) →
  find_actual_page_count lib w base_url order = Ok <$> locate test 1 1400.
Proof.
  intros Hans. unfold find_actual_page_count, locate.
  rewrite (page_search_raising_answers _ test) by done.
  by destruct (page_search test _ 1 1400).
Qed.

(** The right page count on a feed with content exactly up to [b]. *)
Lemma find_actual_page_count_bound lib w base_url order test b :
  1 ≤ b ≤ 1400 →
  (∀ p, 1 < p ≤ 1400 → has_content lib w base_url order p = Ok (test p)) →
  content_bound test 1 1400 b →
  find_actual_page_count lib w base_url order = Some (Ok b).
Proof.
  intros Hb Hans Hmono.
  rewrite (find_actual_page_count_answers _ _ _ _ test Hans).
  unfold locate.
  rewrite (page_search_finds _ _ 1 1400 b); [done | done | | done].
  intros p Hp. apply Hmono. lia.
Qed.



(** C3, as the code has it. When no page has content, the search
    returns its lower bound, page 1, as the page count; [main] gets a
    page count and, on the answer [y], scrapes pages 1 to 1. *)
Theorem no_content_returns_first_page (lib : library) (w : world)
    (base_url : string) (order : list string → list string) (t : tree) :
  (∀ p, has_content lib w base_url order p = Ok false) →
  find_actual_page_count lib w base_url order = Some (Ok 1) ∧
  main lib w base_url order "y" None None t =
    Some (Ok (scrape_all_pages lib w base_url order 1 1 (new_scraper t))).
Proof.
  intros Hnone.
  assert (Hfind :
    find_actual_page_count lib w base_url order = Some (Ok 1)).
  { rewrite (find_actual_page_count_answers _ _ _ _ (λ _, false))
      by (by intros p _).
    unfold locate.
    rewrite (page_search_finds _ _ 1 1400 1); [done | lia | | done].
    intros p Hp. split; [done | lia]. }
  split; [done|]. unfold main. by rewrite Hfind.
Qed.

Lemma offline_has_no_content p :
  has_content Demo.lib Demo.offline Demo.base_url Demo.order p = Ok false.
Proof. reflexivity. Qed.

Lemma no_content_returns_first_page_witness :
  (∀ p,
     has_content Demo.lib Demo.offline Demo.base_url Demo.order p
       = Ok false) ∧
  find_actual_page_count Demo.lib Demo.offline Demo.base_url Demo.order =
    Some (Ok 1).
Proof.
  split; [exact offline_has_no_content|].
  exact (proj1 (no_content_returns_first_page Demo.lib Demo.offline
                  Demo.base_url Demo.order Demo.empty_disk
                  offline_has_no_content)).
Defined.

(** C3 as stated fails: with a site that answers no request the search
    still returns a page count, and [main] scrapes page 1 on [y]. *)
Lemma no_content_counterexample :
  (∀ p,
     has_content Demo.lib Demo.offline Demo.base_url Demo.order p
       = Ok false) ∧
  find_actual_page_count Demo.lib Demo.offline Demo.base_url Demo.order =
    Some (Ok 1) ∧
  chosen_range 1 "y" None None = Some (1, 1) ∧
  main Demo.lib Demo.offline Demo.base_url Demo.order "y" None None
    Demo.empty_disk =
    Some (Ok (scrape_all_pages Demo.lib Demo.offline Demo.base_url
                Demo.order 1 1 (new_scraper Demo.empty_disk))).
Proof.
  split; [exact offline_has_no_content|]. repeat split; reflexivity.
Qed.

(** ** The download directory *)

Lemma path_exists_file_at (t : tree) d f :
  path_exists t d f = true ↔ is_Some (file_at t d f).
Proof.
  unfold path_exists, file_at. destruct (t !! d) as [files|]; simpl.
  - by rewrite bool_decide_eq_true.
  - split; [done | by intros [? ?]].
Qed.

Lemma file_at_mkdir (t : tree) d d' f :
  t !! d = None → file_at (<[d := ∅]> t) d' f = file_at t d' f.
Proof.
  intros Hnone. unfold file_at.
  destruct (decide (d = d')) as [<-|Hne].
  - by rewrite lookup_insert_eq, Hnone.
  - by rewrite lookup_insert_ne.
Qed.

Lemma file_at_put_file_eq (t : tree) d f c :
  file_at (put_file t d f c) d f = Some c.
Proof.
  unfold file_at, put_file. rewrite lookup_insert_eq. simpl.
  by rewrite lookup_insert_eq.
Qed.

Lemma file_at_put_file_ne (t : tree) d f c d' f' :
  (d, f) ≠ (d', f') →
  file_at (put_file t d f c) d' f' = file_at t d' f'.
Proof.
  intros Hne. unfold file_at, put_file.
  destruct (decide (d = d')) as [<-|Hd].
  - rewrite lookup_insert_eq. simpl.
    rewrite lookup_insert_ne by congruence.
    destruct (t !! d); simpl; [done | apply lookup_empty].
  - by rewrite lookup_insert_ne.
Qed.

Lemma file_at_put_file_is_Some (t : tree) d f c d' f' :
  is_Some (file_at t d' f') → is_Some (file_at (put_file t d f c) d' f').
Proof.
  intros Hsome. destruct (decide ((d, f) = (d', f'))) as [[= <- <-]|Hne].
  - by rewrite file_at_put_file_eq.
  - by rewrite file_at_put_file_ne.
Qed.

Lemma path_exists_dir (t : tree) d f :
  path_exists t d f = true → is_Some (t !! d).
Proof. unfold path_exists. by destruct (t !! d). Qed.

(** ** The statements of [download_image] *)

Section Statements.

Variable lib : library.
Variable w : world.

Lemma mkdir_exist_ok_inv d st r st1 :
  mkdir_exist_ok w d st = (r, st1) →
  downloaded_count st1 = downloaded_count st ∧
  failed_count st1 = failed_count st ∧
  (∀ d' f', file_at (disk st1) d' f' = file_at (disk st) d' f') ∧
  match r with
  | Ok _ => is_Some (disk st1 !! d)
  | Raise e => e = DirError ∧ st1 = st
  end.
Proof.
  unfold mkdir_exist_ok. destruct (disk st !! d) as [files|] eqn:Hdir.
  - intros [= <- <-]. by rewrite Hdir.
  - destruct (mkdir_fails w d); intros [= <- <-]; [done|].
    simpl. split_and!; [done | done | |].
    + intros d' f'. by apply file_at_mkdir.
    + by rewrite lookup_insert_eq.
Qed.

Lemma mkdir_exist_ok_present d st :
  is_Some (disk st !! d) → mkdir_exist_ok w d st = (Ok tt, st).
Proof. intros [files Hdir]. unfold mkdir_exist_ok. by rewrite Hdir. Qed.

Lemma session_get_inv url st r st1 :
  session_get w url st = (r, st1) →
  st1 = st ∧
  match r with
  | Ok response =>
      http w url = Responded response ∧ status_ok response = true
  | Raise e => e = RequestException
  end.
Proof.
  unfold session_get.
  destruct (http w url) as [|response]; [by intros [= <- <-]|].
  destruct (status_ok response) eqn:Hok; by intros [= <- <-].
Qed.

Lemma save_inv d f response st r st1 :
  save w d f response st = (r, st1) →
  downloaded_count st1 = downloaded_count st ∧
  failed_count st1 = failed_count st ∧
  (∀ d' f', (d, f) ≠ (d', f') →
            file_at (disk st1) d' f' = file_at (disk st) d' f') ∧
  (∀ d' f', is_Some (file_at (disk st) d' f') →
            is_Some (file_at (disk st1) d' f')) ∧
  match r with
  | Ok _ => file_at (disk st1) d f = Some (chunks response)
  | Raise e => e = StreamError ∨ e = WriteError
  end.
Proof.
  assert (Hput : ∀ c,
    (∀ d' f', (d, f) ≠ (d', f') →
       file_at (put_file (disk st) d f c) d' f' = file_at (disk st) d' f') ∧
    (∀ d' f', is_Some (file_at (disk st) d' f') →
       is_Some (file_at (put_file (disk st) d f c) d' f'))).
  { intros c. split; intros d' f' H.
    - by apply file_at_put_file_ne.
    - by apply file_at_put_file_is_Some. }
  unfold save.
  destruct (write_plan w d f) as [| |k].
  - destruct (stream_breaks response); intros [= <- <-]; simpl;
      destruct (Hput (chunks response)); split_and!; auto.
    apply file_at_put_file_eq.
  - intros [= <- <-]. split_and!; auto.
  - destruct (k <? length (chunks response))%nat.
    + intros [= <- <-]; simpl.
      destruct (Hput (take k (chunks response))); split_and!; auto.
    + destruct (stream_breaks response); intros [= <- <-]; simpl;
        destruct (Hput (chunks response)); split_and!; auto.
      apply file_at_put_file_eq.
Qed.

(** Every call of [download_image] is one of the runs. *)
Lemma download_status_run url page st :
  download_run lib w url page st
    (download_status lib w url page st).1
    (download_status lib w url page st).2.
Proof.
  unfold download_status, download_body, bind, urlparse, gets, file_exists.
  destruct (urlparse_path lib url) as [path|] eqn:Hpath; simpl;
    [|by apply run_bad_url].
  destruct (mkdir_exist_ok w (page_dir_name page) st)
    as [[[]|e] st1] eqn:Hdir; simpl; [|by eapply run_no_dir].
  destruct (path_exists (disk st1) _ _) eqn:Hfile; simpl;
    [by eapply run_skipped|].
  destruct (stat_fails w _ _) eqn:Hstat; simpl;
    [by eapply run_no_stat|].
  destruct (session_get w url st1) as [[response|e] st2] eqn:Hget; simpl;
    [|by eapply run_no_response].
  destruct (is_image response) eqn:Himg; simpl;
    [|by eapply run_non_image].
  destruct (save w _ _ response st2) as [[[]|e] st3] eqn:Hsave; simpl.
  - by eapply run_downloaded.
  - by eapply run_not_saved.
Qed.

Lemma download_status_inv url page st s st' :
  download_status lib w url page st = (s, st') →
  download_run lib w url page st s st'.
Proof.
  intros Hrun. pose proof (download_status_run url page st) as H.
  by rewrite Hrun in H.
Qed.

End Statements.

(** ** download_image *)

Section Download.

Variable lib : library.
Variable w : world.

(** The runs are exactly the calls. *)
Lemma download_run_status url page st s st' :
  download_run lib w url page st s st' →
  download_status lib w url page st = (s, st').
Proof.
  unfold download_status, download_body, bind, urlparse, gets, ret,
    raise, modify, file_exists.
  destruct 1 as [Hp | path e st1 Hp Hd | path st1 Hp Hd Hf
                | path e st1 st2 Hp Hd Hf Hg Hx
                | path r st1 st2 Hp Hd Hf Hg Hi Hx
                | path r e st1 st2 st3 Hp Hd Hf Hg Hi Hs Hx
                | path r st1 st2 st3 Hp Hd Hf Hg Hi Hs Hx
                | path st1 Hp Hd Hf Hx];
    rewrite Hp; cbv beta iota; try done;
    rewrite Hd; cbv beta iota; try done;
    rewrite Hf; cbv beta iota; try done;
    rewrite Hx; cbv beta iota; try done;
    rewrite Hg; cbv beta iota; try done;
    rewrite Hi; cbv beta iota delta [negb]; try done;
    by rewrite Hs.
Qed.

(** Which counter a call moves is told by its status. *)
Lemma download_counters url page st s st' :
  download_status lib w url page st = (s, st') →
  match s with
  | Downloaded =>
      downloaded_count st' = downloaded_count st + 1 ∧
      failed_count st' = failed_count st
  | Failed _ =>
      downloaded_count st' = downloaded_count st ∧
      failed_count st' = failed_count st + 1
  | SkippedExisting | NonImageContent =>
      downloaded_count st' = downloaded_count st ∧
      failed_count st' = failed_count st
  end.
Proof.
  intros Hrun%download_status_inv.
  destruct Hrun;
    repeat match goal with
    | H : mkdir_exist_ok _ _ _ = _ |- _ =>
        apply mkdir_exist_ok_inv in H as (? & ? & _)
    | H : session_get _ _ _ = _ |- _ =>
        apply session_get_inv in H as [-> _]
    | H : save _ _ _ _ _ = _ |- _ =>
        apply save_inv in H as (? & ? & _)
    end; simpl; lia.
Qed.

(** A call removes no file. *)
Lemma download_keeps_files url page st s st' d f :
  download_status lib w url page st = (s, st') →
  path_exists (disk st) d f = true →
  path_exists (disk st') d f = true.
Proof.
  rewrite !path_exists_file_at. intros Hrun%download_status_inv Hfile.
  destruct Hrun;
    repeat match goal with
    | H : mkdir_exist_ok _ _ _ = _ |- _ =>
        apply mkdir_exist_ok_inv in H as (_ & _ & Hsame & _)
    | H : session_get _ _ _ = _ |- _ =>
        apply session_get_inv in H as [-> _]
    | H : save _ _ _ _ _ = _ |- _ =>
        apply save_inv in H as (_ & _ & _ & Hkept & _)
    end; simpl; rewrite <- ?Hsame in Hfile; auto.
Qed.

(** An existing destination ends the call at once, with nothing
    changed. *)
Lemma download_skips url page st d f :
  destination lib url page st = Some (d, f) →
  path_exists (disk st) d f = true →
  download_status lib w url page st = (SkippedExisting, st).
Proof.
  unfold destination. intros Hdest Hfile.
  destruct (urlparse_path lib url) as [path|] eqn:Hpath; [|done].
  injection Hdest as <- <-.
  apply download_run_status. eapply run_skipped; [done | | done].
  apply mkdir_exist_ok_present. by eapply path_exists_dir.
Qed.

(** A call that returns [True] leaves a file at its destination. *)
Lemma download_ok_present url page st s st' :
  download_status lib w url page st = (s, st') →
  returned s = true →
  ∃ d f, destination lib url page st = Some (d, f) ∧
         path_exists (disk st') d f = true.
Proof.
  intros Hrun%download_status_inv Hok. unfold destination.
  destruct Hrun as [| | path st1 Hp Hd Hf | | |
                    | path r st1 st2 st3 Hp Hd Hf Hg Hi Hs
                   | path st1 Hp Hd Hf Hx];
    try discriminate Hok; rewrite Hp; eexists _, _; (split; [done|]).
  - done.
  - apply save_inv in Hs as (_ & _ & _ & _ & Hfile).
    apply path_exists_file_at. simpl. by rewrite Hfile.
Qed.

(** Only a call that reaches [open] changes a file. *)
Lemma download_unwritten url page st s st' :
  download_status lib w url page st = (s, st') →
  s ≠ Downloaded → s ≠ Failed StreamError → s ≠ Failed WriteError →
  ∀ d f, file_at (disk st') d f = file_at (disk st) d f.
Proof.
  intros Hrun%download_status_inv Hs1 Hs2 Hs3 d f.
  destruct Hrun;
    repeat match goal with
    | H : mkdir_exist_ok _ _ _ = _ |- _ =>
        apply mkdir_exist_ok_inv in H as (_ & _ & Hsame & Hr)
    | H : session_get _ _ _ = _ |- _ =>
        apply session_get_inv in H as [-> Hg]
    | H : save _ _ _ _ _ = _ |- _ =>
        apply save_inv in H as (_ & _ & _ & _ & Hsave)
    end; simpl; try done.
  by destruct Hsave as [->| ->].
Qed.

(** A response that is not an image ends the call before [open]. *)
Lemma download_non_image url page st s st' response :
  http w url = Responded response →
  is_image response = false →
  download_status lib w url page st = (s, st') →
  s = SkippedExisting ∨ s = NonImageContent ∨
  s = Failed UrlError ∨ s = Failed DirError ∨
  s = Failed RequestException ∨ s = Failed PathError.
Proof.
  intros Hhttp Himg Hrun%download_status_inv.
  destruct Hrun;
    repeat match goal with
    | H : mkdir_exist_ok _ _ _ = (Raise _, _) |- _ =>
        apply mkdir_exist_ok_inv in H as (_ & _ & _ & -> & _)
    | H : session_get _ _ _ = _ |- _ =>
        apply session_get_inv in H as [-> Hg]
    end; subst; auto 7.
  - destruct Hg as [Hg _]. congruence.
  - destruct Hg as [Hg _]. congruence.
Qed.

End Download.

(** ** Synthesized file names *)

Lemma string_length_app (s t : string) :
  String.length (s +:+ t) = (String.length s + String.length t)%nat.
Proof. induction s as [|c s IH]; simpl; [done | by rewrite IH]. Qed.

Lemma string_app_inj_r (t s1 s2 : string) : s1 +:+ t = s2 +:+ t → s1 = s2.
Proof.
  revert s2. induction s1 as [|c s1 IH]; intros [|c2 s2] Heq; simpl in *.
  - done.
  - apply (f_equal String.length) in Heq.
    rewrite ?string_length_app in Heq. simpl in Heq.
    rewrite ?string_length_app in Heq. lia.
  - apply (f_equal String.length) in Heq.
    rewrite ?string_length_app in Heq. simpl in Heq.
    rewrite ?string_length_app in Heq. lia.
  - injection Heq as -> Heq. f_equal. by apply IH.
Qed.

Lemma synthetic_name_inj (a b : Z) :
  "image_" +:+ pretty a +:+ ".jpg" = "image_" +:+ pretty b +:+ ".jpg" →
  a = b.
Proof.
  intros Heq. apply (inj (String.app "image_")) in Heq.
  apply string_app_inj_r in Heq. by apply (inj pretty) in Heq.
Qed.

Lemma filename_for_synthetic n path :
  needs_synthetic (PyStr.basename path) = true →
  filename_for n path = "image_" +:+ pretty (n + 1) +:+ ".jpg".
Proof. intros Hneeds. unfold filename_for. by rewrite Hneeds. Qed.

Lemma filename_for_named n path :
  needs_synthetic (PyStr.basename path) = false →
  filename_for n path = PyStr.basename path.
Proof. intros Hnamed. unfold filename_for. by rewrite Hnamed. Qed.

(** [downloaded_count] never goes down in the loop of a page. *)
Lemma status_each_count lib w urls page st :
  downloaded_count st ≤
  downloaded_count (status_each lib w urls page st).2.
Proof.
  revert st. induction urls as [|u urls IH]; intros st; simpl; [done|].
  destruct (download_status lib w u page st) as [s st1] eqn:Hrun.
  apply download_counters in Hrun. specialize (IH st1).
  destruct (status_each lib w urls page st1) as [ss st2]. simpl in *.
  destruct s; lia.
Qed.

(** C8, as the code has it. A file name without a dot or shorter than
    five characters is replaced by [image_{downloaded_count + 1}.jpg].
    The counter never goes down, and when a download with a synthesized
    name completes, the name synthesized for any later URL of the loop
    differs from its name. *)
Theorem synthetic_filename (lib : library) (w : world)
    (url : string) (between : list string) (path1 path2 : string)
    (page : Z) (st st1 : state) (s : status) :
  urlparse_path lib url = Some path1 →
  needs_synthetic (PyStr.basename path1) = true →
  needs_synthetic (PyStr.basename path2) = true →
  download_status lib w url page st = (s, st1) →
  let st2 := (status_each lib w between page st1).2 in
  filename_for (downloaded_count st) path1 =
    "image_" +:+ pretty (downloaded_count st + 1) +:+ ".jpg" ∧
  downloaded_count st ≤ downloaded_count st2 ∧
  (s = Downloaded →
   filename_for (downloaded_count st2) path2 ≠
   filename_for (downloaded_count st) path1).
Proof.
  intros Hpath Hs1 Hs2 Hrun st2. apply download_counters in Hrun.
  pose proof (status_each_count lib w between page st1) as Hmono.
  fold st2 in Hmono.
  rewrite !filename_for_synthetic by done.
  split; [done|]. split.
  - destruct s; lia.
  - intros ->. intros Heq%synthetic_name_inj. lia.
Qed.

Lemma synthetic_filename_witness :
  let st := new_scraper Demo.empty_disk in
  let run :=
    download_status Demo.lib Demo.w "https://cdn.example.com/render?id=9" 2
      st in
  let st2 :=
    (status_each Demo.lib Demo.w ["https://cdn.example.com/ads/spring.jpeg"]
       2 run.2).2 in
  run.1 = Downloaded ∧
  filename_for (downloaded_count st) "/render" = "image_1.jpg" ∧
  filename_for (downloaded_count st2) "/render" ≠
    filename_for (downloaded_count st) "/render".
Proof.
  intros st run st2.
  destruct (synthetic_filename Demo.lib Demo.w
              "https://cdn.example.com/render?id=9"
              ["https://cdn.example.com/ads/spring.jpeg"]
              "/render" "/render" 2
              st run.2 run.1 eq_refl eq_refl eq_refl eq_refl)
    as (Hname & _ & Hnext).
  split; [reflexivity|].
  split; [exact Hname | exact (Hnext eq_refl)].
Defined.

(** C8 as stated fails: the first of two downloads without a file name
    times out, and both get the name [image_1.jpg]. *)
Lemma synthetic_filename_counterexample :
  let st := new_scraper Demo.empty_disk in
  let st' :=
    (download_image Demo.lib Demo.w "https://cdn.example.com/render?id=7" 2
       st).2 in
  destination Demo.lib "https://cdn.example.com/render?id=7" 2 st =
    Some ("page_2", "image_1.jpg") ∧
  destination Demo.lib "https://cdn.example.com/render?id=8" 2 st' =
    Some ("page_2", "image_1.jpg").
Proof. split; reflexivity. Qed.

(** ** Failures, skips and the counters *)

Lemma download_image_status lib w url page st :
  download_image lib w url page st =
    (returned (download_status lib w url page st).1,
     (download_status lib w url page st).2).
Proof.
  unfold download_image. by destruct (download_status lib w url page st).
Qed.

Lemma scrape_page_unfetched lib w base_url order page st :
  get_page_content w base_url page = None →
  scrape_page lib w base_url order page st = Ok (0, st).
Proof. intros Hnone. unfold scrape_page. by rewrite Hnone. Qed.

Lemma after_page_Ok lib w base_url order page st n st' :
  scrape_page lib w base_url order page st = Ok (n, st') →
  after_page lib w base_url order page st = st'.
Proof. intros Hrun. unfold after_page. by rewrite Hrun. Qed.

Lemma after_page_Raise lib w base_url order page st e :
  scrape_page lib w base_url order page st = Raise e →
  after_page lib w base_url order page st = st.
Proof. intros Hrun. unfold after_page. by rewrite Hrun. Qed.

Lemma page_range_cons start_page end_page :
  start_page ≤ end_page →
  page_range start_page end_page =
    start_page :: page_range (start_page + 1) end_page.
Proof.
  intros Hle. unfold page_range.
  replace (end_page + 1 - start_page)
    with (Z.succ (end_page + 1 - (start_page + 1))) by lia.
  rewrite seqZ_cons by lia. f_equal. f_equal; lia.
Qed.

Lemma scrape_all_pages_step lib w base_url order start_page end_page st :
  start_page ≤ end_page →
  scrape_all_pages lib w base_url order start_page end_page st =
    scrape_all_pages lib w base_url order (start_page + 1) end_page
      (after_page lib w base_url order start_page st).
Proof.
  intros Hle. unfold scrape_all_pages, scrape_pages.
  by rewrite page_range_cons.
Qed.

(** C2, as the code has it. A download that raises (request, stream,
    directory or write error) returns [False] and adds one to
    [failed_count]; a response that is not an image returns [False] and
    moves neither counter; a page that cannot be fetched gives 0 and
    leaves the state as it is; the crawl then goes on with the next
    page, from the state the page left, which is the state before the
    page when [scrape_page] raised. *)
Theorem failures_recovered (lib : library) (w : world) (base_url : string)
    (order : list string → list string) (url : string) (page : Z)
    (st st' : state) (s : status) :
  download_status lib w url page st = (s, st') →
  (∀ e, s = Failed e →
        (download_image lib w url page st).1 = false ∧
        failed_count st' = failed_count st + 1 ∧
        downloaded_count st' = downloaded_count st) ∧
  (s = NonImageContent →
        (download_image lib w url page st).1 = false ∧
        failed_count st' = failed_count st ∧
        downloaded_count st' = downloaded_count st) ∧
  (get_page_content w base_url page = None →
        scrape_page lib w base_url order page st = Ok (0, st)) ∧
  (∀ end_page, page ≤ end_page →
        scrape_all_pages lib w base_url order page end_page st =
        scrape_all_pages lib w base_url order (page + 1) end_page
          (after_page lib w base_url order page st)) ∧
  (∀ n st1, scrape_page lib w base_url order page st = Ok (n, st1) →
        after_page lib w base_url order page st = st1) ∧
  (∀ e1, scrape_page lib w base_url order page st = Raise e1 →
        after_page lib w base_url order page st = st).
Proof.
  intros Hrun. pose proof (download_counters _ _ _ _ _ _ _ Hrun) as Hcount.
  rewrite download_image_status, Hrun. simpl.
  split_and!.
  - intros e ->. simpl. split; [done | lia].
  - intros ->. simpl. split; [done | lia].
  - apply scrape_page_unfetched.
  - intros end_page Hle. by apply scrape_all_pages_step.
  - apply after_page_Ok.
  - apply after_page_Raise.
Qed.

Lemma failures_recovered_witness :
  let st := new_scraper Demo.empty_disk in
  let run :=
    download_status Demo.lib Demo.w "https://cdn.example.com/render?id=7" 2
      st in
  run.1 = Failed RequestException ∧
  failed_count run.2 = failed_count st + 1.
Proof.
  intros st run. split; [reflexivity|].
  exact (proj1 (proj2 (proj1 (failures_recovered Demo.lib Demo.w
    Demo.base_url Demo.order "https://cdn.example.com/render?id=7" 2
    st run.2 run.1 eq_refl) RequestException eq_refl))).
Defined.

(** C2 as stated fails twice: an HTML response to a download is
    reported as failed with [failed_count] still 0, and so is a feed
    page that cannot be fetched. *)
Lemma failures_recovered_counterexample :
  let st := new_scraper Demo.empty_disk in
  let run :=
    download_status Demo.lib Demo.w "https://cdn.example.com/render?id=8" 2
      st in
  run.1 = NonImageContent ∧
  returned run.1 = false ∧
  failed_count run.2 = 0 ∧
  get_page_content Demo.w Demo.base_url 3 = None ∧
  scrape_page Demo.lib Demo.w Demo.base_url Demo.order 3 st = Ok (0, st) ∧
  failed_count (after_page Demo.lib Demo.w Demo.base_url Demo.order 3 st)
    = 0.
Proof. repeat split; reflexivity. Qed.

(** A file name the file system refuses: [exists] raises, the failure
    is counted, and the page directory has been made by then. *)
Example long_name_fails :
  let st := new_scraper Demo.empty_disk in
  let run :=
    download_status Demo.lib Faulty.long_names
      "https://cdn.example.com/render?id=8" 2 st in
  run.1 = Failed PathError ∧
  failed_count run.2 = 1 ∧
  downloaded_count run.2 = 0 ∧
  disk run.2 = {[ "page_2" := ∅ ]}.
Proof. repeat split; reflexivity. Qed.

(** A page whose extraction raises stops [scrape_page]; the crawl
    keeps its state and goes on. *)
Example bracket_page_skipped :
  let st := new_scraper Demo.empty_disk in
  scrape_page Demo.lib Faulty.bracket_site Demo.base_url Demo.order 1 st =
    Raise UrlError ∧
  scrape_all_pages Demo.lib Faulty.bracket_site Demo.base_url Demo.order
    1 3 st = st.
Proof. split; reflexivity. Qed.

(** C4. When the response to a download is not an image and the
    destination is not there yet, the call returns [False] and no file
    of the download directory is created or changed. *)
Theorem non_image_not_written (lib : library) (w : world) (url : string)
    (page : Z) (st : state) (response : response) :
  http w url = Responded response →
  is_image response = false →
  (∀ d f, destination lib url page st = Some (d, f) →
          path_exists (disk st) d f = false) →
  (download_image lib w url page st).1 = false ∧
  ∀ d f, file_at (disk (download_image lib w url page st).2) d f =
         file_at (disk st) d f.
Proof.
  intros Hhttp Himg Habsent. rewrite download_image_status. simpl.
  destruct (download_status lib w url page st) as [s st'] eqn:Hrun. simpl.
  assert (Hs : s ≠ SkippedExisting).
  { intros ->.
    destruct (download_ok_present _ _ _ _ _ _ _ Hrun eq_refl)
      as (d & f & Hdest & Hfile).
    apply path_exists_file_at in Hfile.
    rewrite (download_unwritten _ _ _ _ _ _ _ Hrun) in Hfile by done.
    apply path_exists_file_at in Hfile.
    by rewrite (Habsent _ _ Hdest) in Hfile. }
  destruct (download_non_image _ _ _ _ _ _ _ _ Hhttp Himg Hrun)
    as [->|[->|[->|[->|[->| ->]]]]]; try done;
    (split; [done|]);
    by apply (download_unwritten _ _ _ _ _ _ _ Hrun).
Qed.

Lemma non_image_not_written_witness :
  let st := new_scraper Demo.empty_disk in
  let run :=
    download_image Demo.lib Demo.w "https://cdn.example.com/render?id=8" 2
      st in
  http Demo.w "https://cdn.example.com/render?id=8" =
    Demo.html_page "<h1>Not an image</h1>" ∧
  run.1 = false ∧
  file_at (disk run.2) "page_2" "image_1.jpg" = None.
Proof.
  intros st run.
  destruct (non_image_not_written Demo.lib Demo.w
              "https://cdn.example.com/render?id=8" 2 st _ eq_refl eq_refl)
    as [Hret Hfiles].
  - intros d f [= <- <-]. reflexivity.
  - split; [reflexivity|]. split; [exact Hret|].
    exact (Hfiles "page_2" "image_1.jpg").
Defined.

(** C10. When the destination exists the call returns [True] and
    changes nothing; and any call leaves both counters alone, or adds
    one to [downloaded_count] only, or adds one to [failed_count]
    only. *)
Theorem existing_file_frame (lib : library) (w : world) (url : string)
    (page : Z) (st : state) :
  (∀ d f, destination lib url page st = Some (d, f) →
          path_exists (disk st) d f = true →
          download_image lib w url page st = (true, st)) ∧
  let st' := (download_image lib w url page st).2 in
  (downloaded_count st' = downloaded_count st ∧
   failed_count st' = failed_count st) ∨
  (downloaded_count st' = downloaded_count st + 1 ∧
   failed_count st' = failed_count st) ∨
  (downloaded_count st' = downloaded_count st ∧
   failed_count st' = failed_count st + 1).
Proof.
  split.
  - intros d f Hdest Hfile. rewrite download_image_status.
    by rewrite (download_skips _ w _ _ _ _ _ Hdest Hfile).
  - rewrite download_image_status. simpl.
    destruct (download_status lib w url page st) as [s st'] eqn:Hrun.
    apply download_counters in Hrun. simpl.
    destruct s; auto.
Qed.

Lemma existing_file_frame_witness :
  let st :=
    {| downloaded_count := 4; failed_count := 2;
       disk := {[ "page_1" := {[ "spring.jpeg" := ["old"] ]} ]} |} in
  destination Demo.lib "https://cdn.example.com/ads/spring.jpeg" 1 st =
    Some ("page_1", "spring.jpeg") ∧
  path_exists (disk st) "page_1" "spring.jpeg" = true ∧
  download_image Demo.lib Demo.w "https://cdn.example.com/ads/spring.jpeg" 1
    st = (true, st).
Proof.
  intros st. split; [reflexivity|]. split; [reflexivity|].
  exact (proj1 (existing_file_frame Demo.lib Demo.w
                  "https://cdn.example.com/ads/spring.jpeg" 1 st)
               "page_1" "spring.jpeg" eq_refl eq_refl).
Defined.

(** ** What makes a download fail *)

Section Causes.

Variable lib : library.
Variable w : world.

Lemma mkdir_raises d st e st1 :
  mkdir_exist_ok w d st = (Raise e, st1) → mkdir_fails w d = true.
Proof.
  unfold mkdir_exist_ok. destruct (disk st !! d); [done|].
  by destruct (mkdir_fails w d).
Qed.

Lemma session_get_raises url st e st1 :
  session_get w url st = (Raise e, st1) →
  http w url = RequestError ∨
  ∃ response, http w url = Responded response ∧ status_ok response = false.
Proof.
  unfold session_get. destruct (http w url) as [|response]; [by left|].
  destruct (status_ok response) eqn:Hok; [done|].
  intros _. right. by exists response.
Qed.

Lemma save_raises d f response st e st1 :
  save w d f response st = (Raise e, st1) →
  (e = StreamError ∧ stream_breaks response = true) ∨
  (e = WriteError ∧ write_plan w d f ≠ NoFault).
Proof.
  unfold save. destruct (write_plan w d f) as [| |k].
  - destruct (stream_breaks response); [|done].
    intros [= <- _]. by left.
  - intros [= <- _]. by right.
  - destruct (k <? length (chunks response))%nat.
    + intros [= <- _]. by right.
    + destruct (stream_breaks response); [|done].
      intros [= <- _]. by left.
Qed.

(** Each exception the [except] clause counts has its cause in the
    library, on the web site or on the disk. *)
Lemma download_failure_cause url page st e st' :
  download_status lib w url page st = (Failed e, st') →
  match e with
  | UrlError => urlparse_path lib url = None
  | DirError => mkdir_fails w (page_dir_name page) = true
  | RequestException =>
      http w url = RequestError ∨
      ∃ response,
        http w url = Responded response ∧ status_ok response = false
  | StreamError =>
      ∃ response,
        http w url = Responded response ∧ stream_breaks response = true
  | WriteError => ∃ f, write_plan w (page_dir_name page) f ≠ NoFault
  | PathError => ∃ f, stat_fails w (page_dir_name page) f = true
  end.
Proof.
  intros Hrun%download_status_inv.
  inversion Hrun as [Hp | path e' st1 Hp Hd | | path e' st1 st2 Hp Hd Hf Hg
                    | | path r e' st1 st2 st3 Hp Hd Hf Hg Hi Hs |
                    | path st1 Hp Hd Hf Hx];
    subst.
  - done.
  - pose proof (mkdir_raises _ _ _ _ Hd) as Hfails.
    apply mkdir_exist_ok_inv in Hd as (_ & _ & _ & -> & _). done.
  - pose proof (session_get_raises _ _ _ _ Hg) as Hcause.
    apply session_get_inv in Hg as [_ ->]. done.
  - apply session_get_inv in Hg as [_ [Hhttp _]].
    apply save_raises in Hs as [[-> Hbreaks]|[-> Hplan]]; eauto.
  - eauto.
Qed.

End Causes.

(** ** Crawling twice *)

Section Crawl.

Variable lib : library.
Variable w : world.
Variable base_url : string.

(** A page whose extraction raises leaves [scrape_page] before the
    first download. *)
Lemma scrape_page_raises order page st e :
  scrape_page lib w base_url order page st = Raise e →
  page_image_urls lib w base_url order page = [].
Proof.
  unfold scrape_page, page_image_urls.
  destruct (get_page_content w base_url page) as [html|]; [|done].
  destruct (String.eqb html ""); [done|].
  by destruct (extract_image_urls lib base_url order html).
Qed.

Lemma scrape_page_each order page st n st' :
  scrape_page lib w base_url order page st = Ok (n, st') →
  download_each lib w (page_image_urls lib w base_url order page)
                page 0 st = (n, st').
Proof.
  unfold scrape_page, page_image_urls.
  destruct (get_page_content w base_url page) as [html|];
    [|by intros [= <- <-]].
  unfold extract_image_urls.
  destruct (String.eqb html ""); [by intros [= <- <-]|].
  destruct (collect_image_urls lib base_url (find_all_img lib html));
    simpl; [|done].
  by intros [= ->].
Qed.

Lemma download_each_state urls page n st :
  (download_each lib w urls page n st).2 =
    (status_each lib w urls page st).2.
Proof.
  revert n st. induction urls as [|u urls IH]; intros n st; simpl; [done|].
  rewrite download_image_status.
  destruct (download_status lib w u page st) as [s st1]. simpl.
  rewrite IH. by destruct (status_each lib w urls page st1).
Qed.

Lemma scrape_page_state order page st :
  after_page lib w base_url order page st =
    (status_each lib w (page_image_urls lib w base_url order page)
                 page st).2.
Proof.
  unfold after_page.
  destruct (scrape_page lib w base_url order page st) as [[n st']|e]
    eqn:Hrun.
  - apply scrape_page_each in Hrun.
    by rewrite <- download_each_state with (n := 0), Hrun.
  - by rewrite (scrape_page_raises _ _ _ _ Hrun).
Qed.

Lemma status_each_keeps_files urls page st d f :
  path_exists (disk st) d f = true →
  path_exists (disk (status_each lib w urls page st).2) d f = true.
Proof.
  revert st. induction urls as [|u urls IH]; intros st Hfile; simpl;
    [done|].
  destruct (download_status lib w u page st) as [s st1] eqn:Hrun.
  specialize (IH st1 (download_keeps_files _ _ _ _ _ _ _ _ _ Hrun Hfile)).
  by destruct (status_each lib w urls page st1).
Qed.

Lemma scrape_pages_keeps_files order pages st d f :
  path_exists (disk st) d f = true →
  path_exists (disk (scrape_pages lib w base_url order pages st)) d f
    = true.
Proof.
  revert st. induction pages as [|p pages IH]; intros st Hfile; simpl;
    [done|].
  apply IH. rewrite scrape_page_state. by apply status_each_keeps_files.
Qed.

Lemma stored_kept_each urls page st page' url :
  stored lib (disk st) page' url →
  stored lib (disk (status_each lib w urls page st).2) page' url.
Proof.
  intros (path & Hpath & Hfile). exists path.
  split; [done | by apply status_each_keeps_files].
Qed.

Lemma stored_kept_pages order pages st page url :
  stored lib (disk st) page url →
  stored lib (disk (scrape_pages lib w base_url order pages st)) page url.
Proof.
  intros (path & Hpath & Hfile). exists path.
  split; [done | by apply scrape_pages_keeps_files].
Qed.

(** In a loop where every call returns [True], every URL ends up
    stored. *)
Lemma status_each_stores urls page st :
  (∀ u, u ∈ urls → named lib u) →
  Forall (λ s, returned s = true) (status_each lib w urls page st).1 →
  ∀ u, u ∈ urls →
       stored lib (disk (status_each lib w urls page st).2) page u.
Proof.
  revert st. induction urls as [|u0 urls IH]; intros st Hnamed Hok u Hu.
  - by apply elem_of_nil in Hu.
  - simpl in *.
    destruct (download_status lib w u0 page st) as [s st1] eqn:Hrun.
    specialize (IH st1).
    destruct (status_each lib w urls page st1) as [ss st2] eqn:Heach.
    simpl in *. apply Forall_cons in Hok as [Hs Hss].
    apply elem_of_cons in Hu as [->|Hu].
    + destruct (download_ok_present _ _ _ _ _ _ _ Hrun Hs)
        as (d & f & Hdest & Hfile).
      unfold destination in Hdest.
      destruct (urlparse_path lib u0) as [path|] eqn:Hpath; [|done].
      injection Hdest as <- <-.
      rewrite filename_for_named in Hfile
        by (apply (Hnamed u0); [by left | done]).
      pose proof (stored_kept_each urls page st1 page u0) as Hkept.
      rewrite Heach in Hkept. apply Hkept. by exists path.
    + apply IH; [|done|done].
      intros u' Hu'. apply Hnamed. by right.
Qed.

(** In a loop where every URL is stored, every call is skipped and
    the state stays as it is. *)
Lemma status_each_skips urls page st :
  (∀ u, u ∈ urls → named lib u ∧ stored lib (disk st) page u) →
  status_each lib w urls page st =
    (replicate (length urls) SkippedExisting, st).
Proof.
  induction urls as [|u0 urls IH]; intros Hall; simpl; [done|].
  destruct (Hall u0) as [Hnamed (path & Hpath & Hfile)]; [by left|].
  rewrite (download_skips lib w u0 page st (page_dir_name page)
             (PyStr.basename path)).
  - rewrite IH; [done|]. intros u Hu. apply Hall. by right.
  - unfold destination. rewrite Hpath.
    by rewrite filename_for_named by (by apply Hnamed).
  - done.
Qed.

Lemma crawl_stores order pages st :
  all_named lib w base_url order pages →
  Forall (λ s, returned s = true)
         (crawl_statuses lib w base_url order pages st) →
  ∀ page u,
    page ∈ pages →
    u ∈ page_image_urls lib w base_url order page →
    stored lib (disk (scrape_pages lib w base_url order pages st)) page u.
Proof.
  revert st.
  induction pages as [|p pages IH]; intros st Hnamed Hok page u Hpage Hu.
  - by apply elem_of_nil in Hpage.
  - simpl in *. rewrite scrape_page_state.
    pose proof (status_each_stores
                  (page_image_urls lib w base_url order p) p st) as Hp.
    destruct (status_each lib w (page_image_urls lib w base_url order p)
                          p st) as [ss st1] eqn:Heach.
    simpl in *. apply Forall_app in Hok as [Hss Hrest].
    apply elem_of_cons in Hpage as [->|Hpage].
    + apply stored_kept_pages. apply Hp; [|done|done].
      intros u' Hu' path Hpath. eapply Hnamed; [by left | done | done].
    + apply IH; [|done|done|done].
      intros p' u' path Hp' Hu' Hpath.
      eapply Hnamed; [by right | done | done].
Qed.

Lemma crawl_skips order pages st :
  (∀ page u, page ∈ pages →
             u ∈ page_image_urls lib w base_url order page →
             named lib u ∧ stored lib (disk st) page u) →
  scrape_pages lib w base_url order pages st = st ∧
  Forall (λ s, s = SkippedExisting)
         (crawl_statuses lib w base_url order pages st).
Proof.
  induction pages as [|p pages IH]; intros Hall; simpl; [done|].
  rewrite scrape_page_state.
  rewrite status_each_skips by (intros u Hu; apply Hall; [by left|done]).
  simpl. destruct IH as [Hst Hss].
  { intros page u Hpage Hu. apply Hall; [by right | done]. }
  split; [done|]. apply Forall_app. split; [|done].
  by apply Forall_replicate.
Qed.

Lemma page_image_urls_order order order' page u :
  set_order order → set_order order' →
  u ∈ page_image_urls lib w base_url order page →
  u ∈ page_image_urls lib w base_url order' page.
Proof.
  intros Hord Hord'. unfold page_image_urls.
  destruct (get_page_content w base_url page) as [html|]; [|done].
  destruct (extract_image_urls lib base_url order html) as [urls|e]
    eqn:Hrun; [|by intros ?%elem_of_nil].
  destruct (extract_elem_of_order lib base_url order Hord order' html urls
              Hord' Hrun) as (urls' & -> & Hsame).
  apply Hsame.
Qed.

End Crawl.

(** C5, as the code has it. When no URL of the crawled pages needs a
    synthesized file name and every download of the first crawl
    returned [True], a second crawl by a new scraper over the same
    feed and the download directory the first one left skips every
    download as existing, ends with both counters at 0 and changes no
    file, whatever order [list(set(...))] takes in either run. *)
Theorem second_crawl_skips (lib : library) (w : world) (base_url : string)
    (order1 order2 : list string → list string)
    (start_page end_page : Z) (st0 : state) :
  set_order order1 →
  set_order order2 →
  all_named lib w base_url order1 (page_range start_page end_page) →
  Forall (λ s, returned s = true)
         (crawl_statuses lib w base_url order1
            (page_range start_page end_page) st0) →
  let st1 := scrape_all_pages lib w base_url order1 start_page end_page st0 in
  let again := new_scraper (disk st1) in
  let st2 :=
    scrape_all_pages lib w base_url order2 start_page end_page again in
  downloaded_count st2 = 0 ∧
  failed_count st2 = 0 ∧
  disk st2 = disk st1 ∧
  Forall (λ s, s = SkippedExisting)
         (crawl_statuses lib w base_url order2
            (page_range start_page end_page) again).
Proof.
  intros Hord1 Hord2 Hnamed Hok st1 again st2.
  destruct (crawl_skips lib w base_url order2
              (page_range start_page end_page) again) as [Hst Hss].
  { intros page u Hpage Hu.
    apply (page_image_urls_order _ _ _ order2 order1) in Hu; [|done|done].
    split.
    - intros path Hpath. by eapply Hnamed.
    - by apply crawl_stores. }
  unfold st2, scrape_all_pages. by rewrite Hst.
Qed.

Lemma second_crawl_skips_witness :
  let st1 :=
    scrape_all_pages Demo.lib Demo.w Demo.base_url Demo.order 1 1
      (new_scraper Demo.empty_disk) in
  let st2 :=
    scrape_all_pages Demo.lib Demo.w Demo.base_url Demo.order' 1 1
      (new_scraper (disk st1)) in
  crawl_statuses Demo.lib Demo.w Demo.base_url Demo.order [1]
    (new_scraper Demo.empty_disk) = [Downloaded; Downloaded] ∧
  downloaded_count st1 = 2 ∧
  downloaded_count st2 = 0 ∧
  failed_count st2 = 0.
Proof.
  intros st1 st2.
  destruct (second_crawl_skips Demo.lib Demo.w Demo.base_url
              Demo.order Demo.order' 1 1 (new_scraper Demo.empty_disk)
              remove_dups_set_order reverse_remove_dups_set_order)
    as (Hd & Hf & _).
  - intros page u Hpage Hu path Hpath.
    apply list_elem_of_singleton in Hpage as ->.
    change (u ∈ ["https://cdn.example.com/ads/spring.jpeg";
                 "https://cdn.example.com/ads/summer.jpeg"]) in Hu.
    apply elem_of_cons in Hu as [->|Hu];
      [|apply list_elem_of_singleton in Hu as ->];
      injection Hpath as <-; reflexivity.
  - repeat constructor.
  - split; [reflexivity|]. split; [reflexivity|].
    split; [exact Hd | exact Hf].
Defined.

(** C5 as stated fails: the feed and the download directory are the
    same for the second crawl, and the image that timed out in the
    first one times out again. *)
Lemma second_crawl_counterexample :
  let st1 :=
    scrape_all_pages Demo.lib Demo.w Demo.base_url Demo.order 1 2
      (new_scraper Demo.empty_disk) in
  let st2 :=
    scrape_all_pages Demo.lib Demo.w Demo.base_url Demo.order 1 2
      (new_scraper (disk st1)) in
  failed_count st2 = 1 ∧
  crawl_statuses Demo.lib Demo.w Demo.base_url Demo.order [1; 2]
    (new_scraper (disk st1)) =
    [SkippedExisting; SkippedExisting; Failed RequestException;
     NonImageContent].
Proof. split; reflexivity. Qed.

(** A first crawl in which every download completes is not enough
    either: the image of page 2 was stored as [image_3.jpg], the new
    scraper looks for [image_1.jpg] and downloads it again. *)
Example second_crawl_synthetic_refetch :
  let st1 :=
    scrape_all_pages Demo.lib Demo.w' Demo.base_url Demo.order 1 2
      (new_scraper Demo.empty_disk) in
  let st2 :=
    scrape_all_pages Demo.lib Demo.w' Demo.base_url Demo.order 1 2
      (new_scraper (disk st1)) in
  crawl_statuses Demo.lib Demo.w' Demo.base_url Demo.order [1; 2]
    (new_scraper Demo.empty_disk) = [Downloaded; Downloaded; Downloaded] ∧
  file_at (disk st1) "page_2" "image_3.jpg" = Some ["JFIF-render"] ∧
  file_at (disk st1) "page_2" "image_1.jpg" = None ∧
  downloaded_count st2 = 1 ∧
  file_at (disk st2) "page_2" "image_1.jpg" = Some ["JFIF-render"].
Proof. repeat split; reflexivity. Qed.

(** * More properties of the code *)

(** ** The pages the search fetches *)

Lemma mid_page_double lo hi :
  2 * ((lo + hi + 1) `div` 2) ≤ lo + hi + 1 ∧
  lo + hi ≤ 2 * ((lo + hi + 1) `div` 2).
Proof. Z.div_mod_to_equations. lia. Qed.

Section Probes.

Variable probe : Z → bool.

Lemma page_probes_unfold fuel lo hi :
  lo < hi →
  page_probes probe (S fuel) lo hi =
    (lo + hi + 1) `div` 2 ::
      if probe ((lo + hi + 1) `div` 2)
      then page_probes probe fuel ((lo + hi + 1) `div` 2) hi
      else page_probes probe fuel lo ((lo + hi + 1) `div` 2 - 1).
Proof. intros Hlt. simpl. by rewrite (proj2 (Z.ltb_lt _ _) Hlt). Qed.

Lemma page_probes_exit fuel lo hi :
  hi ≤ lo → page_probes probe fuel lo hi = [].
Proof.
  intros Hle. destruct fuel; simpl;
    by rewrite (proj2 (Z.ltb_ge _ _) Hle).
Qed.

Lemma page_probes_range fuel lo hi :
  Forall (λ p, lo < p ≤ hi) (page_probes probe fuel lo hi).
Proof.
  revert lo hi. induction fuel as [|fuel IH]; intros lo hi.
  - simpl. by destruct (lo <? hi).
  - destruct (decide (lo < hi)) as [Hlt|Hge];
      [|rewrite page_probes_exit by lia; constructor].
    rewrite page_probes_unfold by done.
    pose proof (mid_page_between lo hi Hlt) as Hmid.
    constructor; [done|].
    destruct (probe _).
    + eapply Forall_impl; [apply IH|]. simpl. lia.
    + eapply Forall_impl; [apply IH|]. simpl. lia.
Qed.

Lemma page_probes_NoDup fuel lo hi :
  NoDup (page_probes probe fuel lo hi).
Proof.
  revert lo hi. induction fuel as [|fuel IH]; intros lo hi.
  - simpl. destruct (lo <? hi); constructor.
  - destruct (decide (lo < hi)) as [Hlt|Hge];
      [|rewrite page_probes_exit by lia; constructor].
    rewrite page_probes_unfold by done.
    set (mid := (lo + hi + 1) `div` 2).
    constructor.
    + intros Hin. destruct (probe mid).
      * pose proof (page_probes_range fuel mid hi) as Hr.
        rewrite Forall_forall in Hr. apply Hr in Hin. lia.
      * pose proof (page_probes_range fuel lo (mid - 1)) as Hr.
        rewrite Forall_forall in Hr. apply Hr in Hin. lia.
    + destruct (probe mid); apply IH.
Qed.

(** Each fetch halves the distance between floor and ceiling. *)
Lemma page_probes_length n fuel lo hi :
  hi - lo < 2 ^ Z.of_nat n →
  (length (page_probes probe fuel lo hi) ≤ n)%nat.
Proof.
  revert fuel lo hi. induction n as [|n IH]; intros fuel lo hi Hpow.
  - rewrite page_probes_exit; [done|]. simpl in Hpow. lia.
  - destruct (decide (lo < hi)) as [Hlt|Hge];
      [|rewrite page_probes_exit by lia; simpl; lia].
    destruct fuel as [|fuel].
    { simpl. destruct (lo <? hi); simpl; lia. }
    rewrite page_probes_unfold by done.
    rewrite Nat2Z.inj_succ, Z.pow_succ_r in Hpow by lia.
    set (mid := (lo + hi + 1) `div` 2).
    pose proof (mid_page_double lo hi) as Hmid. fold mid in Hmid.
    simpl. apply le_n_S.
    destruct (probe mid); apply IH; lia.
Qed.

(** As many iterations as fetches bring the loop to its exit. *)
Lemma page_search_enough n lo hi :
  lo ≤ hi →
  hi - lo < 2 ^ Z.of_nat n →
  page_search probe n lo hi =
    page_search probe (Z.to_nat (hi - lo)) lo hi.
Proof.
  intros Hle Hpow.
  assert (Hgen : ∀ n fuel lo hi,
    lo ≤ hi → hi - lo < 2 ^ Z.of_nat n →
    (Z.to_nat (hi - lo) ≤ fuel)%nat →
    page_search probe n lo hi = page_search probe fuel lo hi).
  { clear. induction n as [|n IH]; intros fuel lo hi Hle Hpow Hfuel.
    - simpl in Hpow. rewrite !page_search_exit by lia. done.
    - destruct (decide (lo < hi)) as [Hlt|Hge];
        [|by rewrite !page_search_exit by lia].
      destruct fuel as [|fuel]; [lia|].
      rewrite !page_search_unfold by done.
      rewrite Nat2Z.inj_succ, Z.pow_succ_r in Hpow by lia.
      set (mid := (lo + hi + 1) `div` 2).
      pose proof (mid_page_double lo hi) as Hmid. fold mid in Hmid.
      destruct (probe mid); apply IH; lia. }
  by apply Hgen.
Qed.

End Probes.

(** The result depends on the pages above the lower bound only. *)
Lemma page_search_ext probe1 probe2 fuel lo hi :
  (∀ p, lo < p ≤ hi → probe1 p = probe2 p) →
  page_search probe1 fuel lo hi = page_search probe2 fuel lo hi ∧
  page_probes probe1 fuel lo hi = page_probes probe2 fuel lo hi.
Proof.
  revert lo hi. induction fuel as [|fuel IH]; intros lo hi Hext; [done|].
  destruct (decide (lo < hi)) as [Hlt|Hge];
    [|by rewrite !page_search_exit, !page_probes_exit by lia].
  rewrite !page_search_unfold, !page_probes_unfold by done.
  pose proof (mid_page_between lo hi Hlt) as Hmid.
  rewrite <- (Hext ((lo + hi + 1) `div` 2)) by done.
  destruct (probe1 _).
  - destruct (IH ((lo + hi + 1) `div` 2) hi) as [-> ->]; [|done].
    intros p Hp. apply Hext. lia.
  - destruct (IH lo ((lo + hi + 1) `div` 2 - 1)) as [-> ->]; [|done].
    intros p Hp. apply Hext. lia.
Qed.

(** The floor is the lower bound or a page with content, the ceiling
    the upper bound or a page followed by one without content. *)
Lemma page_search_invariant probe lo0 hi0 fuel lo hi m m' :
  lo ≤ hi →
  lo = lo0 ∨ probe lo = true →
  hi = hi0 ∨ probe (hi + 1) = false →
  page_search probe fuel lo hi = Some (m, m') →
  m' = m ∧ lo ≤ m ≤ hi ∧
  (m = lo0 ∨ probe m = true) ∧ (m = hi0 ∨ probe (m + 1) = false).
Proof.
  revert lo hi. induction fuel as [|fuel IH]; intros lo hi Hle Hlo Hhi.
  - simpl. destruct (lo <? hi) eqn:Hlt; [done|].
    apply Z.ltb_ge in Hlt. intros [= <- <-].
    assert (hi = lo) as -> by lia. done.
  - destruct (decide (lo < hi)) as [Hlt|Hge].
    + rewrite page_search_unfold by done.
      pose proof (mid_page_between lo hi Hlt) as Hmid.
      destruct (probe ((lo + hi + 1) `div` 2)) eqn:Hprobe; intros Hsearch.
      * apply IH in Hsearch as (? & ? & ? & ?); [|lia|by right|done].
        split_and!; [done|lia|lia|done|done].
      * apply IH in Hsearch as (? & ? & ? & ?); [|lia|done|].
        -- split_and!; [done|lia|lia|done|done].
        -- right. by rewrite Z.sub_add.
    + rewrite page_search_exit by lia. intros [= <- <-].
      assert (hi = lo) as -> by lia. done.
Qed.








(** ** What the extractor returns *)

(** X5. [extract_image_urls] raises exactly when the body is not empty
    and the loop raises at some image element ([urljoin] on its
    source); otherwise it returns, and the URLs returned are exactly
    those that some image element of a non-empty body yields, in
    whatever order. *)
Theorem extract_exactly_the_images (lib : library) (base_url : string)
    (order : list string → list string) (html : string) :
  set_order order →
  ((∃ e, extract_image_urls lib base_url order html = Raise e) ↔
   html ≠ "" ∧
   ∃ img e, img ∈ find_all_img lib html ∧
            image_url_of lib base_url img = Raise e) ∧
  ((html = "" ∨
    ∀ img, img ∈ find_all_img lib html →
           ∃ found, image_url_of lib base_url img = Ok found) →
   ∃ image_urls, extract_image_urls lib base_url order html = Ok image_urls) ∧
  (∀ image_urls,
     extract_image_urls lib base_url order html = Ok image_urls →
     ∀ u, u ∈ image_urls ↔
          html ≠ "" ∧
          ∃ img, img ∈ find_all_img lib html ∧
                 image_url_of lib base_url img = Ok (Some u)).
Proof.
  intros Hord.
  pose proof (collect_raises lib base_url (find_all_img lib html)) as Hraise.
  pose proof (λ u, elem_of_collect lib base_url u (find_all_img lib html))
    as Helem.
  unfold extract_image_urls.
  destruct (String.eqb_spec html "") as [->|Hne].
  - split_and!.
    + split; [by intros [? ?] | by intros [? _]].
    + intros _. by exists [].
    + intros ? [= <-] u.
      split; [by intros ?%elem_of_nil | by intros [? _]].
  - destruct (collect_image_urls lib base_url (find_all_img lib html))
      as [collected|e]; simpl.
    + split_and!.
      * split; [by intros [? ?]|]. intros [_ Himg].
        by destruct (proj2 Hraise Himg).
      * intros _. by exists (order collected).
      * intros ? [= <-] u.
        rewrite (order_elem_of _ Hord), (Helem u collected eq_refl).
        split; [by intros Himg | by intros [_ Himg]].
    + destruct (proj1 Hraise) as (img & e' & Himg & He); [by exists e|].
      split_and!.
      * split; [|by exists e]. intros _. split; [done|]. by exists img, e'.
      * intros [?|Hall]; [done|].
        destruct (Hall img Himg) as [found Hfound]. congruence.
      * done.
Qed.

Lemma extract_exactly_the_images_witness :
  set_order Demo.order' ∧
  ∃ image_urls,
    extract_image_urls Demo.lib Demo.base_url Demo.order' Demo.gallery_page
      = Ok image_urls ∧
    "https://www.adsoftheworld.com/media/launch.jpeg" ∈ image_urls.
Proof.
  split; [exact reverse_remove_dups_set_order|].
  eexists. split; [reflexivity|].
  apply (proj2 (proj2 (extract_exactly_the_images Demo.lib Demo.base_url
           Demo.order' Demo.gallery_page reverse_remove_dups_set_order))
           _ eq_refl).
  split; [discriminate|].
  exists {[ "data-src" := "/media/launch.jpeg" ]}.
  split; [|reflexivity].
  apply list_elem_of_further, list_elem_of_here.
Defined.

(** ** os.path.basename *)

Lemma contains_slash_cons c s :
  PyStr.contains "/" (String c s) =
    Ascii.eqb c "/" || PyStr.contains "/" s.
Proof.
  cbn [PyStr.contains]. f_equal. unfold PyStr.startswith.
  change (String.prefix "/" (String c s))
    with (if ascii_dec "/" c then String.prefix "" s else false).
  destruct (ascii_dec "/" c) as [<-|Hne].
  - by destruct s.
  - symmetry. apply Ascii.eqb_neq. congruence.
Qed.

Lemma contains_slash_app s t :
  PyStr.contains "/" (s +:+ t) =
    PyStr.contains "/" s || PyStr.contains "/" t.
Proof.
  induction s as [|c s IH].
  - simpl. by destruct t.
  - change (String c s +:+ t) with (String c (s +:+ t)).
    rewrite !contains_slash_cons, IH. by rewrite orb_assoc.
Qed.

Lemma string_app_nil_r (s : string) : s +:+ "" = s.
Proof.
  induction s as [|c s IH]; [done|].
  change (String c s +:+ "") with (String c (s +:+ "")). by rewrite IH.
Qed.

Lemma string_app_assoc (s t u : string) :
  (s +:+ t) +:+ u = s +:+ (t +:+ u).
Proof.
  induction s as [|c s IH]; [done|].
  change ((String c s +:+ t) +:+ u) with (String c ((s +:+ t) +:+ u)).
  by rewrite IH.
Qed.

Lemma basename_from_no_slash cur p :
  PyStr.contains "/" p = false → PyStr.basename_from cur p = cur +:+ p.
Proof.
  revert cur. induction p as [|c p IH]; intros cur Hp; simpl.
  - by rewrite string_app_nil_r.
  - rewrite contains_slash_cons in Hp. apply orb_false_elim in Hp as [Hc Hp].
    rewrite Hc, IH by done. by rewrite string_app_assoc.
Qed.

Lemma basename_from_slash cur dir name :
  PyStr.basename_from cur (dir +:+ String "/" name) =
    PyStr.basename_from "" name.
Proof.
  revert cur. induction dir as [|c dir IH]; intros cur; simpl; [done|].
  destruct (Ascii.eqb c "/"); apply IH.
Qed.

Lemma basename_from_contains cur p :
  PyStr.contains "/" cur = false →
  PyStr.contains "/" (PyStr.basename_from cur p) = false.
Proof.
  revert cur. induction p as [|c p IH]; intros cur Hcur; simpl; [done|].
  destruct (Ascii.eqb c "/") eqn:Hc; apply IH; [done|].
  rewrite contains_slash_app, Hcur, contains_slash_cons, Hc. done.
Qed.

(** A basename holds no slash, and the basename of a directory path
    joined by a slash with a name without slash is that name. *)
Lemma basename_of_join (dir name p : string) :
  PyStr.contains "/" (PyStr.basename p) = false ∧
  (PyStr.contains "/" name = false →
   PyStr.basename (dir +:+ "/" +:+ name) = name).
Proof.
  split.
  - by apply basename_from_contains.
  - intros Hname. unfold PyStr.basename.
    change ("/" +:+ name) with (String "/" name).
    rewrite basename_from_slash. by rewrite basename_from_no_slash.
Qed.

(** ** What one download does to the disk *)

Section Writes.

Variable lib : library.
Variable w : world.

Lemma save_ok_inv d f response st st1 :
  save w d f response st = (Ok tt, st1) →
  stream_breaks response = false ∧
  disk st1 = put_file (disk st) d f (chunks response).
Proof.
  unfold save. destruct (write_plan w d f) as [| |k].
  - destruct (stream_breaks response); [done|]. by intros [= <-].
  - done.
  - destruct (k <? length (chunks response))%nat; [done|].
    destruct (stream_breaks response); [done|]. by intros [= <-].
Qed.

Lemma save_stream_inv d f response st st1 :
  save w d f response st = (Raise StreamError, st1) →
  file_at (disk st1) d f = Some (chunks response).
Proof.
  unfold save. destruct (write_plan w d f) as [| |k].
  - destruct (stream_breaks response); [|done].
    intros [= <-]. apply file_at_put_file_eq.
  - done.
  - destruct (k <? length (chunks response))%nat; [done|].
    destruct (stream_breaks response); [|done].
    intros [= <-]. apply file_at_put_file_eq.
Qed.

Lemma path_exists_false_file_at (t : tree) d f :
  path_exists t d f = false ↔ file_at t d f = None.
Proof.
  rewrite <- not_true_iff_false, path_exists_file_at.
  by rewrite eq_None_not_Some.
Qed.

(** A file that is there keeps its content. *)
Lemma download_keeps_content url page st s st' d f c :
  download_status lib w url page st = (s, st') →
  file_at (disk st) d f = Some c →
  file_at (disk st') d f = Some c.
Proof.
  intros Hrun%download_status_inv Hfile.
  destruct Hrun as [| path e st1 Hp Hd | path st1 Hp Hd Hf
                   | path e st1 st2 Hp Hd Hf Hg
                   | path r st1 st2 Hp Hd Hf Hg Hi
                   | path r e st1 st2 st3 Hp Hd Hf Hg Hi Hs
                   | path r st1 st2 st3 Hp Hd Hf Hg Hi Hs
                   | path st1 Hp Hd Hf Hx];
    try done;
    apply mkdir_exist_ok_inv in Hd as (_ & _ & Hsame & _);
    rewrite <- Hsame in Hfile;
    try (apply session_get_inv in Hg as [-> _]);
    try done;
    apply save_inv in Hs as (_ & _ & Hother & _);
    simpl; rewrite Hother; [done| |done|];
    intros [= <- <-]; apply path_exists_false_file_at in Hf; congruence.
Qed.

(** Only the destination can change. *)
Lemma download_frame url page st s st' d f :
  download_status lib w url page st = (s, st') →
  destination lib url page st ≠ Some (d, f) →
  file_at (disk st') d f = file_at (disk st) d f.
Proof.
  intros Hrun%download_status_inv Hdest. unfold destination in Hdest.
  destruct Hrun as [| path e st1 Hp Hd | path st1 Hp Hd Hf
                   | path e st1 st2 Hp Hd Hf Hg
                   | path r st1 st2 Hp Hd Hf Hg Hi
                   | path r e st1 st2 st3 Hp Hd Hf Hg Hi Hs
                   | path r st1 st2 st3 Hp Hd Hf Hg Hi Hs
                   | path st1 Hp Hd Hf Hx];
    try done;
    rewrite Hp in Hdest;
    apply mkdir_exist_ok_inv in Hd as (_ & _ & Hsame & _);
    try (apply session_get_inv in Hg as [-> _]);
    simpl; try done;
    apply save_inv in Hs as (_ & _ & Hother & _);
    rewrite Hother; [done| |done|]; congruence.
Qed.

(** A completed download stored the whole body of an image response
    in a file that was not there. *)
Lemma download_completed url page st st' :
  download_status lib w url page st = (Downloaded, st') →
  ∃ response d f,
    http w url = Responded response ∧
    status_ok response = true ∧
    is_image response = true ∧
    stream_breaks response = false ∧
    destination lib url page st = Some (d, f) ∧
    file_at (disk st) d f = None ∧
    file_at (disk st') d f = Some (chunks response).
Proof.
  intros Hrun%download_status_inv. unfold destination.
  inversion Hrun as [| | | | | | path r st1 st2 st3 Hp Hd Hf Hg Hi Hs
                   | path st1 Hp Hd Hf Hx];
    subst.
  apply mkdir_exist_ok_inv in Hd as (_ & _ & Hsame & _).
  apply session_get_inv in Hg as [-> [Hhttp Hok]].
  apply save_ok_inv in Hs as [Hbreak Hdisk].
  apply path_exists_false_file_at in Hf. rewrite Hsame in Hf.
  eexists r, _, _. rewrite Hp. split_and!; try done.
  simpl. rewrite Hdisk. apply file_at_put_file_eq.
Qed.

(** A file changes only under an image response with a good status. *)
Lemma download_change_cause url page st s st' d f :
  download_status lib w url page st = (s, st') →
  file_at (disk st') d f ≠ file_at (disk st) d f →
  destination lib url page st = Some (d, f) ∧
  ∃ response,
    http w url = Responded response ∧
    status_ok response = true ∧
    is_image response = true.
Proof.
  intros Hrun Hdiff. split.
  - destruct (decide (destination lib url page st = Some (d, f)))
      as [|Hne]; [done|].
    by rewrite (download_frame _ _ _ _ _ _ _ Hrun Hne) in Hdiff.
  - apply download_status_inv in Hrun.
    destruct Hrun as [| path e st1 Hp Hd | path st1 Hp Hd Hf
                     | path e st1 st2 Hp Hd Hf Hg
                     | path r st1 st2 Hp Hd Hf Hg Hi
                     | path r e st1 st2 st3 Hp Hd Hf Hg Hi Hs
                     | path r st1 st2 st3 Hp Hd Hf Hg Hi Hs
                   | path st1 Hp Hd Hf Hx];
      try done;
      apply mkdir_exist_ok_inv in Hd as (_ & _ & Hsame & _);
      try (apply session_get_inv in Hg as [-> Hget]);
      simpl in Hdiff; try (by rewrite Hsame in Hdiff);
      exists r; by destruct Hget.
Qed.

Lemma save_keeps_dir d f response st r st1 :
  is_Some (disk st !! d) →
  save w d f response st = (r, st1) →
  is_Some (disk st1 !! d).
Proof.
  intros Hdir.
  assert (Hput : ∀ c, is_Some (put_file (disk st) d f c !! d)).
  { intros c. unfold put_file. by rewrite lookup_insert_eq. }
  unfold save. destruct (write_plan w d f) as [| |k].
  - intros [= <- <-]. apply Hput.
  - by intros [= <- <-].
  - destruct (k <? length (chunks response))%nat;
      intros [= <- <-]; apply Hput.
Qed.

(** The directory of the page is there after every call that got past
    [mkdir]. *)
Lemma download_makes_dir url page st s st' :
  download_status lib w url page st = (s, st') →
  s ≠ Failed UrlError → s ≠ Failed DirError →
  is_Some (disk st' !! page_dir_name page).
Proof.
  intros Hrun%download_status_inv Hs1 Hs2.
  destruct Hrun as [| path e st1 Hp Hd | path st1 Hp Hd Hf
                   | path e st1 st2 Hp Hd Hf Hg
                   | path r st1 st2 Hp Hd Hf Hg Hi
                   | path r e st1 st2 st3 Hp Hd Hf Hg Hi Hs
                   | path r st1 st2 st3 Hp Hd Hf Hg Hi Hs
                   | path st1 Hp Hd Hf Hx];
    try done;
    apply mkdir_exist_ok_inv in Hd as (_ & _ & _ & Hdir);
    try (by destruct Hdir as [-> _]);
    try (apply session_get_inv in Hg as [-> _]);
    try done; simpl; by eapply save_keeps_dir.
Qed.

End Writes.

(** X7. One call of [download_image] leaves every file that is there
    with its content, and changes no path but its destination. *)
Theorem download_touches_destination_only (lib : library) (w : world)
    (url : string) (page : Z) (st st' : state) (s : status) :
  download_status lib w url page st = (s, st') →
  (∀ d f c, file_at (disk st) d f = Some c →
            file_at (disk st') d f = Some c) ∧
  (∀ d f, destination lib url page st ≠ Some (d, f) →
          file_at (disk st') d f = file_at (disk st) d f).
Proof.
  intros Hrun. split.
  - intros d f c. by eapply download_keeps_content.
  - intros d f. by eapply download_frame.
Qed.

Lemma download_touches_destination_only_witness :
  let st :=
    {| downloaded_count := 0; failed_count := 0;
       disk := {[ "page_1" := {[ "summer.jpeg" := ["old"] ]} ]} |} in
  let run :=
    download_status Demo.lib Demo.w "https://cdn.example.com/ads/spring.jpeg"
      1 st in
  run.1 = Downloaded ∧
  file_at (disk run.2) "page_1" "summer.jpeg" = Some ["old"].
Proof.
  intros st run. split; [reflexivity|].
  exact (proj1 (download_touches_destination_only Demo.lib Demo.w
                  "https://cdn.example.com/ads/spring.jpeg" 1 st run.2 run.1
                  eq_refl) "page_1" "summer.jpeg" ["old"] eq_refl).
Defined.

(** X8. A call that ends as downloaded got a response with a good
    status and an image content type whose stream did not break, found
    no file at its destination and left there the chunks of the
    response, all of them and in order. *)
Theorem download_completed_stores_body (lib : library) (w : world)
    (url : string) (page : Z) (st st' : state) :
  download_status lib w url page st = (Downloaded, st') →
  ∃ response d f,
    http w url = Responded response ∧
    status_ok response = true ∧
    is_image response = true ∧
    stream_breaks response = false ∧
    destination lib url page st = Some (d, f) ∧
    file_at (disk st) d f = None ∧
    file_at (disk st') d f = Some (chunks response).
Proof. apply download_completed. Qed.

Lemma download_completed_stores_body_witness :
  ∃ st',
    download_status Demo.lib Demo.w "https://cdn.example.com/ads/spring.jpeg"
      1 (new_scraper Demo.empty_disk) = (Downloaded, st') ∧
    file_at (disk st') "page_1" "spring.jpeg" =
      Some ["JFIF-spring-1"; "JFIF-spring-2"].
Proof.
  eexists. split; [reflexivity|].
  destruct (download_completed_stores_body Demo.lib Demo.w
              "https://cdn.example.com/ads/spring.jpeg" 1
              (new_scraper Demo.empty_disk) _ eq_refl)
    as (r & d & f & Hhttp & _ & _ & _ & Hdest & _ & Hfile).
  injection Hhttp as <-. injection Hdest as <- <-. exact Hfile.
Defined.

(** X9. A call changes a file only at its destination and only when
    the response has a good status and an image content type. *)
Theorem files_come_from_images (lib : library) (w : world)
    (url : string) (page : Z) (st st' : state) (s : status)
    (d f : string) :
  download_status lib w url page st = (s, st') →
  file_at (disk st') d f ≠ file_at (disk st) d f →
  destination lib url page st = Some (d, f) ∧
  ∃ response,
    http w url = Responded response ∧
    status_ok response = true ∧
    is_image response = true.
Proof. apply download_change_cause. Qed.

Lemma files_come_from_images_witness :
  let st := new_scraper Demo.empty_disk in
  let run :=
    download_status Demo.lib Faulty.w
      "https://cdn.example.com/ads/spring.jpeg" 1 st in
  file_at (disk run.2) "page_1" "spring.jpeg" ≠
    file_at (disk st) "page_1" "spring.jpeg" ∧
  destination Demo.lib "https://cdn.example.com/ads/spring.jpeg" 1 st =
    Some ("page_1", "spring.jpeg").
Proof.
  intros st run.
  assert (Hdiff : file_at (disk run.2) "page_1" "spring.jpeg" ≠
                  file_at (disk st) "page_1" "spring.jpeg")
    by discriminate.
  split; [exact Hdiff|].
  exact (proj1 (files_come_from_images Demo.lib Faulty.w
                  "https://cdn.example.com/ads/spring.jpeg" 1 st run.2 run.1
                  "page_1" "spring.jpeg" eq_refl Hdiff)).
Defined.

(** X10. When the stream of a response breaks, the call counts a
    failure and leaves the chunks received at the destination; the
    next call for the same URL and page finds that file and returns
    [True] without fetching anything. *)
Theorem broken_stream_is_not_retried (lib : library) (w : world)
    (url : string) (page : Z) (st st' : state) :
  download_status lib w url page st = (Failed StreamError, st') →
  failed_count st' = failed_count st + 1 ∧
  (∃ response d f,
     http w url = Responded response ∧
     destination lib url page st = Some (d, f) ∧
     file_at (disk st') d f = Some (chunks response)) ∧
  download_status lib w url page st' = (SkippedExisting, st').
Proof.
  intros Hrun.
  pose proof (download_counters _ _ _ _ _ _ _ Hrun) as [Hdc Hfc].
  apply download_status_inv in Hrun.
  inversion Hrun as [| path e st1 Hp Hd | | path e st1 st2 Hp Hd Hf Hg
                    | | path r e st1 st2 st3 Hp Hd Hf Hg Hi Hs | | ];
    subst.
  - by apply mkdir_exist_ok_inv in Hd as (_ & _ & _ & ? & _).
  - by apply session_get_inv in Hg as [_ ?].
  - apply session_get_inv in Hg as [-> [Hhttp _]].
    apply save_stream_inv in Hs.
    assert (Hdest : destination lib url page st =
              Some (page_dir_name page,
                    filename_for (downloaded_count st) path))
      by (unfold destination; by rewrite Hp).
    split; [done|]. split.
    + by exists r, (page_dir_name page),
                (filename_for (downloaded_count st) path).
    + apply (download_skips lib w url page _ (page_dir_name page)
               (filename_for (downloaded_count st) path)).
      * unfold destination. rewrite Hp. by rewrite Hdc.
      * apply path_exists_file_at. simpl. by rewrite Hs.
Qed.

Lemma broken_stream_is_not_retried_witness :
  let run :=
    download_status Demo.lib Faulty.w
      "https://cdn.example.com/ads/spring.jpeg" 1
      (new_scraper Demo.empty_disk) in
  run.1 = Failed StreamError ∧
  file_at (disk run.2) "page_1" "spring.jpeg" = Some ["JFIF-spring-1"] ∧
  download_image Demo.lib Faulty.w
    "https://cdn.example.com/ads/spring.jpeg" 1 run.2 = (true, run.2).
Proof.
  intros run. split; [reflexivity|]. split; [reflexivity|].
  destruct (broken_stream_is_not_retried Demo.lib Faulty.w
              "https://cdn.example.com/ads/spring.jpeg" 1
              (new_scraper Demo.empty_disk) run.2 eq_refl)
    as (_ & _ & Hskip).
  rewrite download_image_status. by rewrite Hskip.
Defined.

(** X11. After a call that returned [True], a second call for the same
    URL and page is skipped as existing and changes nothing, provided
    the URL has a file name of its own or the first call was itself a
    skip. *)
Theorem second_download_skips (lib : library) (w : world)
    (url : string) (page : Z) (st st' : state) (s : status) :
  download_status lib w url page st = (s, st') →
  returned s = true →
  s = SkippedExisting ∨ named lib url →
  download_status lib w url page st' = (SkippedExisting, st').
Proof.
  intros Hrun Hok Hsame.
  destruct (download_ok_present _ _ _ _ _ _ _ Hrun Hok)
    as (d & f & Hdest & Hfile).
  apply (download_skips lib w url page st' d f); [|done].
  unfold destination in *.
  destruct (urlparse_path lib url) as [path|] eqn:Hpath; [|done].
  injection Hdest as <- <-. f_equal. f_equal.
  destruct Hsame as [->|Hnamed].
  - apply download_counters in Hrun as [-> _]. done.
  - by rewrite !filename_for_named by (by apply Hnamed).
Qed.

Lemma second_download_skips_witness :
  let run :=
    download_status Demo.lib Demo.w "https://cdn.example.com/ads/summer.jpeg"
      1 (new_scraper Demo.empty_disk) in
  run.1 = Downloaded ∧
  named Demo.lib "https://cdn.example.com/ads/summer.jpeg" ∧
  download_status Demo.lib Demo.w "https://cdn.example.com/ads/summer.jpeg"
    1 run.2 = (SkippedExisting, run.2).
Proof.
  intros run.
  assert (Hnamed : named Demo.lib "https://cdn.example.com/ads/summer.jpeg")
    by (intros path [= <-]; reflexivity).
  split; [reflexivity|]. split; [exact Hnamed|].
  exact (second_download_skips Demo.lib Demo.w
           "https://cdn.example.com/ads/summer.jpeg" 1
           (new_scraper Demo.empty_disk) run.2 run.1 eq_refl eq_refl
           (or_intror Hnamed)).
Defined.

(** X12. Every call whose URL parses and whose page directory can be
    made leaves that directory behind, also when the download fails or
    is not an image. *)
Theorem page_directory_is_made (lib : library) (w : world)
    (url : string) (page : Z) (st st' : state) (s : status) :
  download_status lib w url page st = (s, st') →
  s ≠ Failed UrlError →
  s ≠ Failed DirError →
  is_Some (disk st' !! page_dir_name page).
Proof. apply download_makes_dir. Qed.

Lemma page_directory_is_made_witness :
  let run :=
    download_status Demo.lib Demo.w "https://cdn.example.com/render?id=7" 2
      (new_scraper Demo.empty_disk) in
  run.1 = Failed RequestException ∧
  disk run.2 !! "page_2" = Some ∅.
Proof.
  intros run. split; [reflexivity|].
  destruct (page_directory_is_made Demo.lib Demo.w
              "https://cdn.example.com/render?id=7" 2
              (new_scraper Demo.empty_disk) run.2 run.1 eq_refl)
    as [files Hfiles]; [discriminate | discriminate |].
  reflexivity.
Defined.

(** ** Counting over a page and over a crawl *)

Section Accounts.

Variable lib : library.
Variable w : world.
Variable base_url : string.

Lemma count_status_cons p s ss :
  count_status p (s :: ss) =
    (if p s then 1 else 0) + count_status p ss.
Proof.
  unfold count_status. simpl. destruct (p s); simpl; lia.
Qed.

Lemma count_status_app p ss1 ss2 :
  count_status p (ss1 ++ ss2)%list =
    count_status p ss1 + count_status p ss2.
Proof.
  unfold count_status. rewrite List.filter_app, length_app. lia.
Qed.

Lemma count_status_bounds p ss :
  0 ≤ count_status p ss ≤ Z.of_nat (length ss).
Proof.
  unfold count_status. pose proof (List.filter_length_le p ss). lia.
Qed.

Lemma status_each_length urls page st :
  length (status_each lib w urls page st).1 = length urls.
Proof.
  revert st. induction urls as [|u urls IH]; intros st; simpl; [done|].
  destruct (download_status lib w u page st) as [s st1].
  specialize (IH st1).
  destruct (status_each lib w urls page st1) as [ss st2].
  simpl in *. by rewrite IH.
Qed.

Lemma download_each_count urls page n st :
  (download_each lib w urls page n st).1 =
    n + count_status returned (status_each lib w urls page st).1.
Proof.
  revert n st. induction urls as [|u urls IH]; intros n st; simpl.
  - unfold count_status. simpl. lia.
  - rewrite download_image_status.
    destruct (download_status lib w u page st) as [s st1]. simpl.
    rewrite IH.
    destruct (status_each lib w urls page st1) as [ss st2]. simpl.
    rewrite count_status_cons. destruct (returned s); lia.
Qed.

Lemma status_each_accounts urls page st :
  downloaded_count (status_each lib w urls page st).2 =
    downloaded_count st +
    count_status is_downloaded (status_each lib w urls page st).1 ∧
  failed_count (status_each lib w urls page st).2 =
    failed_count st +
    count_status is_failed (status_each lib w urls page st).1.
Proof.
  revert st. induction urls as [|u urls IH]; intros st; simpl.
  - unfold count_status. simpl. lia.
  - destruct (download_status lib w u page st) as [s st1] eqn:Hrun.
    apply download_counters in Hrun. specialize (IH st1).
    destruct (status_each lib w urls page st1) as [ss st2]. simpl in *.
    rewrite !count_status_cons. destruct s; simpl; lia.
Qed.

Lemma crawl_accounts order pages st :
  downloaded_count (scrape_pages lib w base_url order pages st) =
    downloaded_count st +
    count_status is_downloaded
      (crawl_statuses lib w base_url order pages st) ∧
  failed_count (scrape_pages lib w base_url order pages st) =
    failed_count st +
    count_status is_failed (crawl_statuses lib w base_url order pages st).
Proof.
  revert st. induction pages as [|p pages IH]; intros st; simpl.
  - unfold count_status. simpl. lia.
  - rewrite scrape_page_state.
    pose proof (status_each_accounts
                  (page_image_urls lib w base_url order p) p st) as Hp.
    destruct (status_each lib w (page_image_urls lib w base_url order p)
                          p st) as [ss st1].
    simpl in *. specialize (IH st1). rewrite !count_status_app. lia.
Qed.

Lemma status_each_keeps_content urls page st d f c :
  file_at (disk st) d f = Some c →
  file_at (disk (status_each lib w urls page st).2) d f = Some c.
Proof.
  revert st. induction urls as [|u urls IH]; intros st Hfile; simpl;
    [done|].
  destruct (download_status lib w u page st) as [s st1] eqn:Hrun.
  specialize (IH st1 (download_keeps_content _ _ _ _ _ _ _ _ _ _ Hrun Hfile)).
  by destruct (status_each lib w urls page st1).
Qed.

Lemma scrape_pages_keeps_content order pages st d f c :
  file_at (disk st) d f = Some c →
  file_at (disk (scrape_pages lib w base_url order pages st)) d f = Some c.
Proof.
  revert st. induction pages as [|p pages IH]; intros st Hfile; simpl;
    [done|].
  apply IH. rewrite scrape_page_state.
  by apply status_each_keeps_content.
Qed.

Lemma scrape_pages_app order pages1 pages2 st :
  scrape_pages lib w base_url order (pages1 ++ pages2)%list st =
    scrape_pages lib w base_url order pages2
      (scrape_pages lib w base_url order pages1 st).
Proof. unfold scrape_pages. by rewrite foldl_app. Qed.

End Accounts.

Lemma page_range_app a b c :
  a ≤ b + 1 → b ≤ c →
  page_range a c = (page_range a b ++ page_range (b + 1) c)%list.
Proof.
  intros Hab Hbc. unfold page_range.
  replace (c + 1 - a) with ((b + 1 - a) + (c + 1 - (b + 1))) by lia.
  rewrite seqZ_app by lia. f_equal. f_equal. lia.
Qed.

(** X13. [scrape_page] returns unless the extraction raises on the
    body fetched. The number it returns is the number of its downloads
    that returned [True] - downloaded or skipped as existing - and lies
    between 0 and the number of URLs of the page; the state it leaves
    is the one its downloads leave. *)
Theorem scrape_page_counts_successes (lib : library) (w : world)
    (base_url : string) (order : list string → list string)
    (page : Z) (st : state) :
  let urls := page_image_urls lib w base_url order page in
  let statuses := (status_each lib w urls page st).1 in
  match scrape_page lib w base_url order page st with
  | Ok (downloaded, st') =>
      downloaded = count_status returned statuses ∧
      0 ≤ downloaded ≤ Z.of_nat (length urls) ∧
      st' = (status_each lib w urls page st).2
  | Raise e =>
      ∃ html,
        get_page_content w base_url page = Some html ∧
        extract_image_urls lib base_url order html = Raise e
  end.
Proof.
  intros urls statuses. subst statuses.
  destruct (scrape_page lib w base_url order page st) as [[n st']|e]
    eqn:Hrun.
  - pose proof (after_page_Ok _ _ _ _ _ _ _ _ Hrun) as Hafter.
    rewrite scrape_page_state in Hafter.
    apply scrape_page_each in Hrun. fold urls in Hrun, Hafter.
    pose proof (download_each_count lib w urls page 0 st) as Hcount.
    rewrite Hrun in Hcount. simpl in Hcount.
    pose proof (count_status_bounds returned
                  (status_each lib w urls page st).1) as Hb.
    rewrite status_each_length in Hb. split_and!; [lia | lia | lia | done].
  - unfold scrape_page in Hrun.
    destruct (get_page_content w base_url page) as [html|]; [|done].
    destruct (String.eqb html ""); [done|].
    destruct (extract_image_urls lib base_url order html) as [l|e']
      eqn:Hextract; simpl in Hrun; [done|].
    injection Hrun as ->. by exists html.
Qed.

(** X14. Over a crawl, [downloaded_count] grows by the number of
    downloads that completed and [failed_count] by the number that
    raised; skipped and non-image downloads move neither, and neither
    counter ever goes down. *)
Theorem crawl_counters_account (lib : library) (w : world)
    (base_url : string) (order : list string → list string)
    (start_page end_page : Z) (st : state) :
  let st' := scrape_all_pages lib w base_url order start_page end_page st in
  let statuses :=
    crawl_statuses lib w base_url order (page_range start_page end_page) st in
  downloaded_count st' =
    downloaded_count st + count_status is_downloaded statuses ∧
  failed_count st' = failed_count st + count_status is_failed statuses ∧
  downloaded_count st ≤ downloaded_count st' ∧
  failed_count st ≤ failed_count st'.
Proof.
  intros st' statuses.
  destruct (crawl_accounts lib w base_url order
              (page_range start_page end_page) st) as [Hd Hf].
  fold statuses in Hd, Hf.
  pose proof (count_status_bounds is_downloaded statuses).
  pose proof (count_status_bounds is_failed statuses).
  unfold st', scrape_all_pages. lia.
Qed.

(** X15. Crawling a range in two parts, one after the other, ends in
    the same state as crawling it at once; a range whose end is below
    its start changes nothing. *)
Theorem crawl_in_parts (lib : library) (w : world) (base_url : string)
    (order : list string → list string) (a b c : Z) (st : state) :
  (a ≤ b + 1 → b ≤ c →
   scrape_all_pages lib w base_url order a c st =
     scrape_all_pages lib w base_url order (b + 1) c
       (scrape_all_pages lib w base_url order a b st)) ∧
  (c < a → scrape_all_pages lib w base_url order a c st = st).
Proof.
  split.
  - intros Hab Hbc. unfold scrape_all_pages.
    by rewrite (page_range_app a b c), scrape_pages_app.
  - intros Hlt. unfold scrape_all_pages, page_range.
    by rewrite seqZ_nil by lia.
Qed.

Lemma crawl_in_parts_witness :
  scrape_all_pages Demo.lib Demo.w Demo.base_url Demo.order 1 2
    (new_scraper Demo.empty_disk) =
  scrape_all_pages Demo.lib Demo.w Demo.base_url Demo.order 2 2
    (scrape_all_pages Demo.lib Demo.w Demo.base_url Demo.order 1 1
       (new_scraper Demo.empty_disk)).
Proof.
  apply (crawl_in_parts Demo.lib Demo.w Demo.base_url Demo.order 1 1 2
           (new_scraper Demo.empty_disk));
    apply Zle_bool_imp_le; reflexivity.
Defined.

(** X16. A crawl never removes or rewrites a file: whatever was in the
    download directory before is there after, with the same content. *)
Theorem crawl_keeps_files (lib : library) (w : world) (base_url : string)
    (order : list string → list string) (start_page end_page : Z)
    (st : state) (d f : string) (c : list string) :
  file_at (disk st) d f = Some c →
  file_at
    (disk (scrape_all_pages lib w base_url order start_page end_page st))
    d f = Some c.
Proof. apply scrape_pages_keeps_content. Qed.

Lemma crawl_keeps_files_witness :
  let st :=
    {| downloaded_count := 0; failed_count := 0;
       disk := {[ "page_1" := {[ "spring.jpeg" := ["old"] ]} ]} |} in
  let st' := scrape_all_pages Demo.lib Demo.w Demo.base_url Demo.order 1 2 st in
  downloaded_count st' = 1 ∧
  file_at (disk st') "page_1" "spring.jpeg" = Some ["old"].
Proof.
  intros st st'. split; [reflexivity|].
  exact (crawl_keeps_files Demo.lib Demo.w Demo.base_url Demo.order 1 2 st
           "page_1" "spring.jpeg" ["old"] eq_refl).
Defined.

(** X17. Different pages have different feed URLs and different
    directories, so files of two pages never share a path. *)
Theorem pages_kept_apart (lib : library) (base_url : string)
    (url1 url2 : string) (p q : Z) (st1 st2 : state) :
  (page_url base_url p = page_url base_url q → p = q) ∧
  (page_dir_name p = page_dir_name q → p = q) ∧
  (is_Some (destination lib url1 p st1) →
   destination lib url1 p st1 = destination lib url2 q st2 → p = q).
Proof.
  assert (Hdir : page_dir_name p = page_dir_name q → p = q).
  { unfold page_dir_name. intros Heq.
    apply (inj (String.app "page_")) in Heq. by apply (inj pretty) in Heq. }
  split_and!; [|done|].
  - unfold page_url. intros Heq.
    apply (inj (String.app base_url)) in Heq.
    apply (inj (String.app "/blog/feed?page=")) in Heq.
    by apply (inj pretty) in Heq.
  - unfold destination. intros [x Hx] Heq.
    destruct (urlparse_path lib url1); [|done].
    destruct (urlparse_path lib url2); [|done].
    apply Hdir. exact (f_equal (λ o, default "" (fst <$> o)) Heq).
Qed.

Lemma pages_kept_apart_witness :
  page_dir_name 12 = "page_12" ∧
  page_url Demo.base_url 12 =
    "https://www.adsoftheworld.com/blog/feed?page=12" ∧
  12 = 12.
Proof.
  split; [reflexivity|]. split; [reflexivity|].
  exact (proj1 (proj2 (pages_kept_apart Demo.lib Demo.base_url "" "" 12 12
                         (new_scraper Demo.empty_disk)
                         (new_scraper Demo.empty_disk))) eq_refl).
Defined.

(** ** main *)

(** X18. With its scraper constructed, the search of [main] always
    ends. Either it raises what the extraction raised on a page it
    fetched, and [main] ends with that exception before it asks
    anything; or it gives a page count between 1 and 1400, and then the
    range [main] scrapes starts at page 1 or later and is not empty
    (pages 1 to the page count on [y], the two numbers typed on
    [custom], which the page count does not cap), and on any other
    answer nothing is scraped. *)
Theorem main_scrapes_valid_range (lib : library) (w : world)
    (base_url : string) (order : list string → list string)
    (user_input : string) (start_typed end_typed : option Z) (t : tree) :
  match find_actual_page_count lib w base_url order with
  | Some (Ok max_pages) =>
      1 ≤ max_pages ≤ 1400 ∧
      match chosen_range max_pages user_input start_typed end_typed with
      | Some (start_page, end_page) =>
          1 ≤ start_page ≤ end_page ∧
          main lib w base_url order user_input start_typed end_typed t =
            Some (Ok (scrape_all_pages lib w base_url order
                        start_page end_page (new_scraper t)))
      | None =>
          main lib w base_url order user_input start_typed end_typed t =
            Some (Ok (new_scraper t))
      end
  | Some (Raise e) =>
      main lib w base_url order user_input start_typed end_typed t =
        Some (Raise e) ∧
      ∃ page_num html,
        1 < page_num ≤ 1400 ∧
        get_page_content w base_url page_num = Some html ∧
        extract_image_urls lib base_url order html = Raise e
  | None => False
  end.
Proof.
  destruct (find_actual_page_count_total lib w base_url order)
    as [(max_pages & Hmax & Hfind)|[e Hfind]].
  - unfold main. rewrite Hfind. simpl. split; [done|].
    destruct (chosen_range max_pages user_input start_typed end_typed)
      as [[a b]|] eqn:Hrange; [|done].
    split; [|done]. unfold chosen_range in Hrange.
    destruct (String.eqb (PyStr.lower user_input) "custom").
    + destruct start_typed as [x|]; [|done].
      destruct end_typed as [y|]; [|done].
      destruct (x <? 1) eqn:Hx; [done|].
      destruct (y <? x) eqn:Hy; [done|].
      injection Hrange as <- <-.
      apply Z.ltb_ge in Hx. apply Z.ltb_ge in Hy. lia.
    + destruct (String.eqb (PyStr.lower user_input) "y"); [|done].
      injection Hrange as <- <-. lia.
  - unfold main. rewrite Hfind. simpl. split; [done|].
    by apply find_actual_page_count_raises.
Qed.

(** On a feed where every page holds a source that [urljoin] refuses,
    [main] ends with the exception of the first page tested. *)
Example main_raises :
  has_content Demo.lib Faulty.bracket_site Demo.base_url Demo.order 701 =
    Raise UrlError ∧
  main Demo.lib Faulty.bracket_site Demo.base_url Demo.order "y" None None
    Demo.empty_disk = Some (Raise UrlError).
Proof. split; reflexivity. Qed.

(** ** detect_pagination_structure *)

Section Detection.

Variable w : world.
Variable base_url : string.
Variable select : string → string → list img_tag.

Lemma first_pagination_Some html patterns pattern :
  first_pagination select html patterns = Some pattern →
  ∃ before after,
    patterns = (before ++ pattern :: after)%list ∧
    has_href (select html pattern) = true ∧
    Forall (λ q, has_href (select html q) = false) before.
Proof.
  induction patterns as [|q patterns IH]; simpl; [done|].
  destruct (has_href (select html q)) eqn:Hq.
  - intros [= <-]. by exists [], patterns.
  - intros (before & after & -> & Hhref & Hbefore)%IH.
    exists (q :: before), after. split; [done|]. split; [done|].
    by constructor.
Qed.

Lemma first_pagination_None html patterns :
  first_pagination select html patterns = None →
  Forall (λ q, has_href (select html q) = false) patterns.
Proof.
  induction patterns as [|q patterns IH]; simpl; [constructor|].
  destruct (has_href (select html q)) eqn:Hq; [done|].
  intros Hnone. constructor; [done | by apply IH].
Qed.

Lemma first_pagination_found html before pattern after :
  has_href (select html pattern) = true →
  Forall (λ q, has_href (select html q) = false) before →
  first_pagination select html (before ++ pattern :: after) = Some pattern.
Proof.
  intros Hhref. induction 1 as [|q before Hq _ IH]; simpl.
  - by rewrite Hhref.
  - by rewrite Hq.
Qed.

Lemma first_pagination_none html patterns :
  Forall (λ q, has_href (select html q) = false) patterns →
  first_pagination select html patterns = None.
Proof.
  induction 1 as [|q patterns Hq _ IH]; simpl; [done|]. by rewrite Hq.
Qed.

Lemma infinite_scroll_true html :
  infinite_scroll select html = true ↔
  ∃ q, q ∈ infinite_scroll_patterns ∧ select html q ≠ [].
Proof.
  unfold infinite_scroll. rewrite existsb_exists. split.
  - intros (q & Hq%list_elem_of_In & Hsel). exists q. split; [done|].
    by apply negb_true_iff, bool_decide_eq_false in Hsel.
  - intros (q & Hq%list_elem_of_In & Hsel). exists q. split; [done|].
    by apply negb_true_iff, bool_decide_eq_false.
Qed.

(** Links after the fifth are not looked at. *)
Lemma has_href_first_five links more :
  (5 ≤ length links)%nat →
  has_href (links ++ more) = has_href links.
Proof.
  intros Hlen. unfold has_href.
  by rewrite take_app_le by done.
Qed.

End Detection.

(** X19. [detect_pagination_structure] answers only when page 1 is
    fetched with a non-empty body, and then: the first of the
    pagination selectors with an [href] among its first five matches
    (matches after the fifth are not looked at) is returned; when no
    pagination selector has one, [infinite_scroll] is returned if an
    infinite-scroll selector matches anything, and nothing otherwise.
    Any answer given is one of these two. *)
Theorem pagination_first_match (w : world) (base_url : string)
    (select : string → string → list img_tag) (answer : string) :
  (∀ links more, (5 ≤ length links)%nat →
                 has_href (links ++ more) = has_href links) ∧
  (detect_pagination_structure w base_url select = Some answer →
   ∃ html,
     get_page_content w base_url 1 = Some html ∧ html ≠ "" ∧
     ((∃ before after,
         pagination_patterns = (before ++ answer :: after)%list ∧
         has_href (select html answer) = true ∧
         Forall (λ q, has_href (select html q) = false) before) ∨
      (answer = "infinite_scroll" ∧
       Forall (λ q, has_href (select html q) = false) pagination_patterns ∧
       ∃ q, q ∈ infinite_scroll_patterns ∧ select html q ≠ []))) ∧
  (get_page_content w base_url 1 = None →
   detect_pagination_structure w base_url select = None) ∧
  (get_page_content w base_url 1 = Some "" →
   detect_pagination_structure w base_url select = None) ∧
  (∀ html, get_page_content w base_url 1 = Some html → html ≠ "" →
     (∀ before after,
        pagination_patterns = (before ++ answer :: after)%list →
        has_href (select html answer) = true →
        Forall (λ q, has_href (select html q) = false) before →
        detect_pagination_structure w base_url select = Some answer) ∧
     (Forall (λ q, has_href (select html q) = false) pagination_patterns →
      (∃ q, q ∈ infinite_scroll_patterns ∧ select html q ≠ []) →
      detect_pagination_structure w base_url select =
        Some "infinite_scroll") ∧
     (Forall (λ q, has_href (select html q) = false) pagination_patterns →
      (∀ q, q ∈ infinite_scroll_patterns → select html q = []) →
      detect_pagination_structure w base_url select = None)).
Proof.
  split; [apply has_href_first_five|].
  unfold detect_pagination_structure.
  destruct (get_page_content w base_url 1) as [html|];
    [|by split_and!].
  destruct (String.eqb_spec html "") as [->|Hne].
  { split_and!; try done. by intros ? [= <-]. }
  split_and!; [| done | by intros [= ->] |].
  - destruct (first_pagination select html pagination_patterns)
      as [pattern|] eqn:Hfirst.
    + intros [= <-]. exists html. split; [done|]. split; [done|].
      left. by apply first_pagination_Some.
    + destruct (infinite_scroll select html) eqn:Hinf; [|done].
      intros [= <-]. exists html. split; [done|]. split; [done|].
      right. split; [done|]. split; [by apply first_pagination_None|].
      by apply infinite_scroll_true.
  - intros ? [= <-] _. split_and!.
    + intros before after -> Hhref Hbefore.
      by rewrite (first_pagination_found select html before answer after).
    + intros Hnone Hinf%infinite_scroll_true.
      by rewrite (first_pagination_none select html _ Hnone), Hinf.
    + intros Hnone Hinf.
      rewrite (first_pagination_none select html _ Hnone).
      destruct (infinite_scroll select html) eqn:Hscroll; [|done].
      apply infinite_scroll_true in Hscroll as (q & Hq & Hsel).
      by destruct (Hsel (Hinf q Hq)).
Qed.

(** A pager whose sixth link only has an [href] is passed over, and the
    load-more button decides. *)
Lemma pagination_first_match_witness :
  detect_pagination_structure Faulty.pager_site Demo.base_url Faulty.select
    = Some "infinite_scroll" ∧
  length (Faulty.select Faulty.pager_page ".pager a") = 6%nat ∧
  has_href (Faulty.select Faulty.pager_page ".pager a") = false.
Proof.
  assert (Hrun : detect_pagination_structure Faulty.pager_site
                   Demo.base_url Faulty.select = Some "infinite_scroll")
    by reflexivity.
  destruct (proj1 (proj2 (pagination_first_match Faulty.pager_site
                     Demo.base_url Faulty.select "infinite_scroll")) Hrun)
    as (html & Hpage & _ & [(before & after & Hpat & _)|(_ & Hnone & _)]).
  - exfalso. clear -Hpat.
    assert (Hin : "infinite_scroll" ∈ pagination_patterns)
      by (rewrite Hpat; apply elem_of_app; right; left).
    unfold pagination_patterns in Hin.
    repeat (apply elem_of_cons in Hin as [Hin|Hin]; [discriminate Hin|]).
    by apply elem_of_nil in Hin.
  - injection Hpage as <-.
    split; [exact Hrun|]. split; [reflexivity|].
    rewrite Forall_forall in Hnone. apply Hnone.
    unfold pagination_patterns. do 4 apply list_elem_of_further.
    apply list_elem_of_here.
Defined.

(** ** What scraping one page leaves alone *)

Section PageFrame.

Variable lib : library.
Variable w : world.
Variable base_url : string.

Lemma download_other_dirs url page st s st' d :
  download_status lib w url page st = (s, st') →
  d ≠ page_dir_name page →
  disk st' !! d = disk st !! d.
Proof.
  intros Hrun%download_status_inv Hne.
  assert (Hmk : ∀ st0 r st1,
            mkdir_exist_ok w (page_dir_name page) st0 = (r, st1) →
            disk st1 !! d = disk st0 !! d).
  { intros st0 r st1. unfold mkdir_exist_ok.
    destruct (disk st0 !! page_dir_name page); [by intros [= _ <-]|].
    destruct (mkdir_fails w _); intros [= _ <-]; [done|].
    simpl. by rewrite lookup_insert_ne. }
  assert (Hsv : ∀ f response st0 r st1,
            save w (page_dir_name page) f response st0 = (r, st1) →
            disk st1 !! d = disk st0 !! d).
  { intros f response st0 r st1. unfold save, put_file.
    destruct (write_plan w _ f) as [| |k].
    - intros [= _ <-]. simpl. by rewrite lookup_insert_ne.
    - by intros [= _ <-].
    - destruct (k <? length (chunks response))%nat; intros [= _ <-];
        simpl; by rewrite lookup_insert_ne. }
  destruct Hrun as [| path e st1 Hp Hd | path st1 Hp Hd Hf
                   | path e st1 st2 Hp Hd Hf Hg
                   | path r st1 st2 Hp Hd Hf Hg Hi
                   | path r e st1 st2 st3 Hp Hd Hf Hg Hi Hs
                   | path r st1 st2 st3 Hp Hd Hf Hg Hi Hs
                   | path st1 Hp Hd Hf Hx];
    try done;
    apply Hmk in Hd;
    try (apply session_get_inv in Hg as [-> _]);
    try (apply Hsv in Hs);
    simpl; congruence.
Qed.

Lemma status_each_other_dirs urls page st d :
  d ≠ page_dir_name page →
  disk (status_each lib w urls page st).2 !! d = disk st !! d.
Proof.
  intros Hne. revert st.
  induction urls as [|u urls IH]; intros st; simpl; [done|].
  destruct (download_status lib w u page st) as [s st1] eqn:Hrun.
  specialize (IH st1).
  destruct (status_each lib w urls page st1) as [ss st2]. simpl in *.
  rewrite IH. by eapply download_other_dirs.
Qed.

End PageFrame.

(** X20. Scraping page [n] changes nothing outside the directory
    [page_n], in what [scrape_page] returns and in the state the crawl
    goes on with; when the page cannot be fetched or yields no image
    URL [scrape_page] returns 0 and changes nothing at all, not even
    making the directory, and when it raises the crawl goes on with
    the state as it was. *)
Theorem scrape_page_stays_in_its_directory (lib : library) (w : world)
    (base_url : string) (order : list string → list string)
    (page : Z) (st : state) :
  (∀ downloaded st' d,
     scrape_page lib w base_url order page st = Ok (downloaded, st') →
     d ≠ page_dir_name page →
     disk st' !! d = disk st !! d) ∧
  (∀ d, d ≠ page_dir_name page →
        disk (after_page lib w base_url order page st) !! d =
        disk st !! d) ∧
  (get_page_content w base_url page = None →
   scrape_page lib w base_url order page st = Ok (0, st)) ∧
  (∀ html, get_page_content w base_url page = Some html →
           extract_image_urls lib base_url order html = Ok [] →
           scrape_page lib w base_url order page st = Ok (0, st)) ∧
  (∀ e, scrape_page lib w base_url order page st = Raise e →
        after_page lib w base_url order page st = st).
Proof.
  split_and!.
  - intros n st' d Hrun Hne.
    rewrite <- (after_page_Ok _ _ _ _ _ _ _ _ Hrun), scrape_page_state.
    by apply status_each_other_dirs.
  - intros d Hne. rewrite scrape_page_state.
    by apply status_each_other_dirs.
  - apply scrape_page_unfetched.
  - intros html Hpage Hnone. unfold scrape_page. rewrite Hpage, Hnone.
    by destruct (String.eqb html "").
  - apply after_page_Raise.
Qed.

Lemma scrape_page_stays_in_its_directory_witness :
  let st := after_page Demo.lib Demo.w Demo.base_url Demo.order 1
              (new_scraper Demo.empty_disk) in
  get_page_content Demo.w Demo.base_url 3 = None ∧
  scrape_page Demo.lib Demo.w Demo.base_url Demo.order 3 st = Ok (0, st) ∧
  disk (after_page Demo.lib Demo.w Demo.base_url Demo.order 2 st)
    !! "page_1" = disk st !! "page_1".
Proof.
  intros st. split; [reflexivity|].
  destruct (scrape_page_stays_in_its_directory Demo.lib Demo.w
              Demo.base_url Demo.order 3 st) as (_ & _ & Hnone & _).
  destruct (scrape_page_stays_in_its_directory Demo.lib Demo.w
              Demo.base_url Demo.order 2 st) as (_ & Hother & _).
  split; [exact (Hnone eq_refl) | apply Hother; discriminate].
Defined.

(** ** The file name never leaves the page directory *)

Lemma pretty_N_char_no_slash x : Ascii.eqb (pretty_N_char x) "/" = false.
Proof. unfold pretty_N_char. by repeat case_match. Qed.

Lemma pretty_N_go_no_slash x s :
  PyStr.contains "/" s = false →
  PyStr.contains "/" (pretty_N_go x s) = false.
Proof.
  revert s. induction (N.lt_wf_0 x) as [x _ IH]; intros s Hs.
  destruct (decide (0 < x)%N) as [Hpos|Hzero].
  - rewrite pretty_N_go_step by done. apply IH.
    + by apply N.div_lt.
    + by rewrite contains_slash_cons, pretty_N_char_no_slash, Hs.
  - assert (x = 0%N) as -> by lia. by rewrite pretty_N_go_0.
Qed.

Lemma pretty_Z_no_slash (n : Z) : PyStr.contains "/" (pretty n) = false.
Proof.
  assert (HN : ∀ x : N, PyStr.contains "/" (pretty x) = false).
  { intros x. unfold pretty, pretty_N.
    destruct (decide (x = 0%N)); [done|]. by apply pretty_N_go_no_slash. }
  destruct n as [|p|p]; [done|apply (HN (Npos p))|].
  change (pretty (Z.neg p)) with ("-" +:+ pretty (Npos p)).
  by rewrite contains_slash_app, HN.
Qed.

(** X6. The file name [download_image] chooses, kept from the URL or
    synthesized, holds no slash: the file lies in the page directory
    itself. A kept name is what follows the last slash of the path. *)
Theorem filename_has_no_slash (downloaded : Z) (path dir name : string) :
  PyStr.contains "/" (filename_for downloaded path) = false ∧
  (PyStr.contains "/" name = false →
   needs_synthetic name = false →
   filename_for downloaded (dir +:+ "/" +:+ name) = name).
Proof.
  split.
  - unfold filename_for. destruct (needs_synthetic _).
    + by rewrite !contains_slash_app, pretty_Z_no_slash.
    + apply basename_of_join; exact "".
  - intros Hname Hkeep. unfold filename_for.
    rewrite (proj2 (basename_of_join dir name "") Hname).
    by rewrite Hkeep.
Qed.

Lemma filename_has_no_slash_witness :
  PyStr.contains "/" "spring.jpeg" = false ∧
  needs_synthetic "spring.jpeg" = false ∧
  filename_for 3 ("/ads/2024" +:+ "/" +:+ "spring.jpeg") = "spring.jpeg".
Proof.
  split; [reflexivity|]. split; [reflexivity|].
  exact (proj2 (filename_has_no_slash 3 "" "/ads/2024" "spring.jpeg")
               eq_refl eq_refl).
Defined.
